(** * Employee generator ([src/main.js]): model and verified properties

    A shallow embedding of the generator of [src/main.js].  The code reads
    two sources outside itself, [Math.random()] and [new Date()]; each is
    an oracle of the [World] the program runs in, and the program threads
    the number of readings made so far through its calls.  The retry loop
    of [generateUniqueBirthdate] has no bound, and the loop of [main] ends
    for a large [count] only when the array of the records is full and
    [push] throws: both take fuel.

    The arithmetic is that of IEEE 754 binary64: time values are integers,
    which binary64 holds exactly up to [2 ^ 53], and the sums, differences
    and the product [Math.random() * x] are rounded to 53 bits, to the
    nearest and with ties to even.  The loop counter of [main] is such a
    number too. *)

From Stdlib Require Import ZArith Lia List Bool String Ascii.
Import ListNotations.
Local Open Scope string_scope.
Local Open Scope list_scope.
Local Open Scope Z_scope.
Set Warnings "-register-all".

(* ===================================================================== *)
(** * 1. Numbers *)
(* ===================================================================== *)

Module Double.

(** A JavaScript Number: NaN, an infinity, or the finite value
    [m * 2 ^ e] ([Finite m 0] is the integer [m]). *)
Inductive number : Type :=
| NaN
| Infinity (negative : bool)
| Finite (m e : Z).

Definition ofZ (z : Z) : number := Finite z 0.

(** The nearest integer to [n / 2 ^ s], ties to the even one
    ([0 <= n], [1 <= s]). *)
Definition rne_shift (n s : Z) : Z :=
  let q := n / 2 ^ s in
  let r := n mod 2 ^ s in
  let half := 2 ^ (s - 1) in
  if r <? half then q
  else if half <? r then q + 1
  else if Z.even q then q else q + 1.

(** Rounding of a natural number to 53 significant bits. *)
Definition round53 (n : Z) : Z :=
  let s := Z.log2 n - 52 in
  if s <=? 0 then n else rne_shift n s * 2 ^ s.

(** [fl z]: the binary64 value nearest to the integer [z] (round to
    nearest, ties to even); every [|z| <= 2 ^ 53] is its own value. *)
Definition fl (z : Z) : Z :=
  if z <? 0 then - round53 (- z) else round53 z.

(** A value of [Math.random()]: the binary64 number
    [significand / 2 ^ (53 + shift)].  With [0 <= significand < 2 ^ 53]
    and [0 <= shift <= 1021] these are exactly the binary64 numbers of
    [[0, 1)]. *)
Record unit_double : Type :=
  { significand : Z;
    shift : Z }.

Definition in_unit_interval (r : unit_double) : Prop :=
  0 <= significand r < 2 ^ 53 /\ 0 <= shift r <= 1021.

(** [Math.floor(r * x)] for an integer [x]: the product of the two
    binary64 numbers is [significand r * x / 2 ^ (53 + shift r)], rounded
    to 53 bits, and then floored. *)
Definition floor_mul (r : unit_double) (x : Z) : Z :=
  fl (significand r * x) / 2 ^ (53 + shift r).

End Double.
Import Double.

(* ===================================================================== *)
(** * 2. Values *)
(* ===================================================================== *)

(** The JavaScript values a request is built from: the primitives and the
    ordinary objects with data properties (what [JSON.parse] yields, and
    [undefined]).  An object is the list of its properties; the first
    binding of a name is the property. *)
Inductive jsval : Type :=
| JUndefined
| JNull
| JBool (b : bool)
| JNum (n : number)
| JStr (s : string)
| JObj (props : list (string * jsval)).

Inductive error : Type := TypeError | RangeError.

(** How a call ends: with a value, with an exception, or (in the model
    only) with its fuel used up. *)
Inductive outcome (A : Type) : Type :=
| Return (a : A)
| Throw (e : error)
| OutOfFuel.
Arguments Return {A} a.
Arguments Throw {A} e.
Arguments OutOfFuel {A}.

(** [typeof v]. *)
Definition typeof (v : jsval) : string :=
  match v with
  | JUndefined => "undefined"
  | JNull => "object"
  | JBool _ => "boolean"
  | JNum _ => "number"
  | JStr _ => "string"
  | JObj _ => "object"
  end.

(** ToBoolean: [!v] is [negb (ToBoolean v)]. *)
Definition ToBoolean (v : jsval) : bool :=
  match v with
  | JUndefined | JNull => false
  | JBool b => b
  | JNum NaN => false
  | JNum (Infinity _) => true
  | JNum (Finite m _) => negb (m =? 0)
  | JStr s => negb (s =? "")%string
  | JObj _ => true
  end.

Fixpoint lookup (props : list (string * jsval)) (key : string) : jsval :=
  match props with
  | [] => JUndefined
  | (k, v) :: rest => if (k =? key)%string then v else lookup rest key
  end.

(** [v.key] for the names the program reads ([count], [age], [min],
    [max]): reading a property of [undefined] or [null] throws a TypeError,
    and no primitive has a property of one of these names. *)
Definition property (v : jsval) (key : string) : jsval :=
  match v with
  | JObj props => lookup props key
  | _ => JUndefined
  end.

Definition Get (v : jsval) (key : string) : outcome jsval :=
  match v with
  | JUndefined | JNull => Throw TypeError
  | _ => Return (property v key)
  end.

Fixpoint has_key (props : list (string * jsval)) (key : string) : bool :=
  match props with
  | [] => false
  | (k, _) :: rest => (k =? key)%string || has_key rest key
  end.

(** [a === "s"] for a string literal. *)
Definition strict_eq_string (a : jsval) (s : string) : bool :=
  match a with
  | JStr t => (t =? s)%string
  | _ => false
  end.

(** [array[i]] and [array.length]. *)
Definition at_index (l : list jsval) (i : Z) : jsval :=
  if i <? 0 then JUndefined else nth (Z.to_nat i) l JUndefined.

Definition len (l : list jsval) : Z := Z.of_nat (List.length l).

(** [i < n] for an integer [i]. *)
Definition lt_number (i : Z) (n : number) : bool :=
  match n with
  | NaN => false
  | Infinity negative => negb negative
  | Finite m e => if 0 <=? e then i <? m * 2 ^ e else i * 2 ^ (- e) <? m
  end.

(** [i < v]; the program compares with a value whose [typeof] is
    ["number"] only. *)
Definition less_than (i : Z) (v : jsval) : bool :=
  match v with
  | JNum n => lt_number i n
  | _ => false
  end.

(** [a - b] on Numbers.  The exact difference of two finite Numbers is
    rounded to 53 bits; it overflows to an infinity from [2 ^ 1024] on. *)
Definition sub (a b : number) : number :=
  match a, b with
  | NaN, _ | _, NaN => NaN
  | Infinity s1, Infinity s2 => if Bool.eqb s1 s2 then NaN else Infinity s1
  | Infinity s, Finite _ _ => Infinity s
  | Finite _ _, Infinity s => Infinity (negb s)
  | Finite m1 e1, Finite m2 e2 =>
      let e := Z.min e1 e2 in
      let d := fl (m1 * 2 ^ (e1 - e) - m2 * 2 ^ (e2 - e)) in
      let overflow :=
        if 0 <=? e then 2 ^ 1024 <=? Z.abs d * 2 ^ e
        else 2 ^ (1024 - e) <=? Z.abs d in
      if overflow then Infinity (d <? 0) else Finite d e
  end.

(** ToIntegerOrInfinity on a finite Number: truncation towards zero. *)
Definition truncate (m e : Z) : Z :=
  if 0 <=? e then m * 2 ^ e else Z.quot m (2 ^ (- e)).

(* ===================================================================== *)
(** * 3. The world and the effects *)
(* ===================================================================== *)

(** What the run reads from outside the program: the successive values of
    [Math.random()], the successive readings of the clock by [new Date()]
    (milliseconds since the epoch), the host's time zone (ECMA-262's
    LocalTZA) and the runtime's conversion of strings to Numbers
    (StringToNumber). *)
Record World : Type :=
  { random : nat -> unit_double;
    clock : nat -> Z;
    LocalTZA : Z -> bool -> Z;
    StringToNumber : string -> number }.

(** What the theorems ask of a world: [Math.random()] is in [[0, 1)],
    and the local time is less than a day from UTC. *)
Definition WorldOk (w : World) : Prop :=
  (forall n, in_unit_interval (random w n))
  /\ (forall t isUTC, Z.abs (LocalTZA w t isUTC) <= 86400000).

(** How many values of each oracle the run has read. *)
Record state : Type :=
  { draws : nat;
    reads : nat }.

Definition M (A : Type) : Type := state -> outcome (A * state).

Definition ret {A} (a : A) : M A := fun st => Return (a, st).

Definition bind {A B} (c : M A) (k : A -> M B) : M B :=
  fun st =>
    match c st with
    | Return (a, st') => k a st'
    | Throw e => Throw e
    | OutOfFuel => OutOfFuel
    end.

Definition lift {A} (o : outcome A) : M A :=
  fun st =>
    match o with
    | Return a => Return (a, st)
    | Throw e => Throw e
    | OutOfFuel => OutOfFuel
    end.

Definition out_of_fuel {A} : M A := fun _ => OutOfFuel.

Definition run {A} (c : M A) : outcome A :=
  match c {| draws := 0; reads := 0 |} with
  | Return (a, _) => Return a
  | Throw e => Throw e
  | OutOfFuel => OutOfFuel
  end.

Notation "x <- c ;; k" := (bind c (fun x => k))
  (at level 61, c at next level, right associativity).

(* ===================================================================== *)
(** * 4. Dates (ECMA-262, "Date Objects") *)
(* ===================================================================== *)

Module Date.

(** A time value: milliseconds since the epoch, or NaN ([None]). *)
Definition timevalue : Type := option Z.

Definition msPerSecond : Z := 1000.
Definition msPerMinute : Z := 60000.
Definition msPerHour : Z := 3600000.
Definition msPerDay : Z := 86400000.
Definition timeLimit : Z := 8640000000000000.

Definition Day (t : Z) : Z := t / msPerDay.
Definition TimeWithinDay (t : Z) : Z := t mod msPerDay.

Definition DaysInYear (y : Z) : Z :=
  if negb (y mod 4 =? 0) then 365
  else if negb (y mod 100 =? 0) then 366
  else if negb (y mod 400 =? 0) then 365
  else 366.

Definition DayFromYear (y : Z) : Z :=
  365 * (y - 1970) + (y - 1969) / 4 - (y - 1901) / 100 + (y - 1601) / 400.

Definition TimeFromYear (y : Z) : Z := msPerDay * DayFromYear y.

(** The year of day [d]: the largest [y] with [DayFromYear y <= d].  The
    mean year has 146097 / 400 days, which gives the year up to one. *)
Definition YearFromDay (d : Z) : Z :=
  let y := 1970 + 400 * d / 146097 in
  if d <? DayFromYear y then y - 1
  else if DayFromYear (y + 1) <=? d then y + 1
  else y.

Definition YearFromTime (t : Z) : Z := YearFromDay (Day t).

(** 1 in a leap year, 0 otherwise. *)
Definition leapOf (y : Z) : Z := if DaysInYear y =? 366 then 1 else 0.

Definition InLeapYear (t : Z) : Z := leapOf (YearFromTime t).

Definition DayWithinYear (t : Z) : Z := Day t - DayFromYear (YearFromTime t).

(** The day within the year on which month [m] (0 to 11) starts; 365 or
    366 past the last month. *)
Definition monthStart (leap m : Z) : Z :=
  match m with
  | 0 => 0
  | 1 => 31
  | 2 => 59 + leap
  | 3 => 90 + leap
  | 4 => 120 + leap
  | 5 => 151 + leap
  | 6 => 181 + leap
  | 7 => 212 + leap
  | 8 => 243 + leap
  | 9 => 273 + leap
  | 10 => 304 + leap
  | 11 => 334 + leap
  | _ => 365 + leap
  end.

Definition monthOfDay (leap d : Z) : Z :=
  if d <? 31 then 0
  else if d <? 59 + leap then 1
  else if d <? 90 + leap then 2
  else if d <? 120 + leap then 3
  else if d <? 151 + leap then 4
  else if d <? 181 + leap then 5
  else if d <? 212 + leap then 6
  else if d <? 243 + leap then 7
  else if d <? 273 + leap then 8
  else if d <? 304 + leap then 9
  else if d <? 334 + leap then 10
  else 11.

Definition MonthFromTime (t : Z) : Z :=
  monthOfDay (InLeapYear t) (DayWithinYear t).

Definition DateFromTime (t : Z) : Z :=
  DayWithinYear t - monthStart (InLeapYear t) (MonthFromTime t) + 1.

Definition HourFromTime (t : Z) : Z := (t / msPerHour) mod 24.
Definition MinFromTime (t : Z) : Z := (t / msPerMinute) mod 60.
Definition SecFromTime (t : Z) : Z := (t / msPerSecond) mod 60.
Definition msFromTime (t : Z) : Z := t mod msPerSecond.

(** MakeDay: the day number of year/month/date; NaN when the year is not
    finite.  Months carry into the year, dates run over the month's end.
    The day is computed for every integer year; a day outside the range of
    time values ends as NaN in TimeClip. *)
Definition MakeDay (year : number) (month date : Z) : timevalue :=
  match year with
  | Finite m e =>
      let y := truncate m e in
      let ym := y + month / 12 in
      let mn := month mod 12 in
      Some (DayFromYear ym + monthStart (leapOf ym) mn + date - 1)
  | _ => None
  end.

Definition MakeDate (day : timevalue) (time : Z) : timevalue :=
  match day with
  | Some d => Some (d * msPerDay + time)
  | None => None
  end.

(** A time value is at most 8.64e15 ms from the epoch; TimeClip turns
    anything else into NaN. *)
Definition valid_time (t : Z) : Prop := Z.abs t <= timeLimit.

Definition TimeClip (t : timevalue) : timevalue :=
  match t with
  | Some t => if timeLimit <? Z.abs t then None else Some t
  | None => None
  end.

Section Host.
Variable w : World.

Definition LocalTime (t : Z) : Z := t + LocalTZA w t true.
Definition UTC (t : Z) : Z := t - LocalTZA w t false.

(** [d.getFullYear()], [d.setFullYear(year)] (which leaves the new time
    value in [d]) and [d.getTime()] on the time value of [d]. *)
Definition getFullYear (d : timevalue) : number :=
  match d with
  | Some t => ofZ (YearFromTime (LocalTime t))
  | None => NaN
  end.

Definition setFullYear (d : timevalue) (year : number) : timevalue :=
  let t := match d with Some t => LocalTime t | None => 0 end in
  let newDate := MakeDay year (MonthFromTime t) (DateFromTime t) in
  match MakeDate newDate (TimeWithinDay t) with
  | Some u => TimeClip (Some (UTC u))
  | None => None
  end.

End Host.

Definition getTime (d : timevalue) : timevalue := d.

(** Decimal digits, most significant first: [decimal k n] is the last [k]
    digits of [n]. *)
Definition digit (n : Z) : ascii := ascii_of_N (48 + Z.to_N (n mod 10)).

Fixpoint decimal (k : nat) (n : Z) : string :=
  match k with
  | O => EmptyString
  | S k' => String (digit (n / 10 ^ Z.of_nat k')) (decimal k' n)
  end.

(** The year of the Date Time String Format: four digits from 0 to 9999,
    a sign and six digits otherwise. *)
Definition yearString (y : Z) : string :=
  if (0 <=? y) && (y <=? 9999) then decimal 4 y
  else String.append (if y <? 0 then "-" else "+") (decimal 6 (Z.abs y)).

Definition isoString (t : Z) : string :=
  (yearString (YearFromTime t) ++ "-" ++ decimal 2 (MonthFromTime t + 1)
   ++ "-" ++ decimal 2 (DateFromTime t)
   ++ "T" ++ decimal 2 (HourFromTime t)
   ++ ":" ++ decimal 2 (MinFromTime t)
   ++ ":" ++ decimal 2 (SecFromTime t)
   ++ "." ++ decimal 3 (msFromTime t) ++ "Z")%string.

(** [d.toISOString()]: a RangeError on an invalid date. *)
Definition toISOString (d : timevalue) : outcome string :=
  match d with
  | Some t => Return (isoString t)
  | None => Throw RangeError
  end.

End Date.
Import Date.

(* ===================================================================== *)
(** * 5. The program ([src/main.js]) *)
(* ===================================================================== *)

Record Employee : Type :=
  { gender : jsval;
    birthdate : string;
    name : jsval;
    surname : jsval;
    workload : jsval }.

(** The arrays the selectors declare. *)
Definition genders : list jsval := [JStr "male"; JStr "female"].

Definition workloads : list jsval :=
  [JNum (ofZ 10); JNum (ofZ 20); JNum (ofZ 30); JNum (ofZ 40)].

Definition maleNames : list jsval :=
  [JStr "Jan"; JStr "Petr"; JStr "Jakub"; JStr "Michal"; JStr "Ondřej";
   JStr "David"; JStr "Tomáš"; JStr "Filip"; JStr "Martin"; JStr "Lukáš";
   JStr "Marek"; JStr "Karel"; JStr "Václav"; JStr "Roman"; JStr "Adam";
   JStr "Matěj"].

Definition femaleNames : list jsval :=
  [JStr "Lucie"; JStr "Marie"; JStr "Anna"; JStr "Tereza"; JStr "Eva";
   JStr "Kateřina"; JStr "Barbora"; JStr "Veronika"; JStr "Adéla";
   JStr "Kristýna"; JStr "Karolína"; JStr "Marcela"; JStr "Hana";
   JStr "Zuzana"; JStr "Jana"; JStr "Nikola"].

(** [male] and [female] are the surname arrays of [getSurname]. *)
Definition male : list jsval :=
  [JStr "Novák"; JStr "Svoboda"; JStr "Novotný"; JStr "Dvořák"; JStr "Černý";
   JStr "Procházka"; JStr "Kučera"; JStr "Veselý"; JStr "Horák"; JStr "Němec";
   JStr "Marek"; JStr "Pokorný"; JStr "Pavlík"; JStr "Sýkora"; JStr "Král";
   JStr "Růžička"].

Definition female : list jsval :=
  [JStr "Nováková"; JStr "Svobodová"; JStr "Novotná"; JStr "Dvořáková";
   JStr "Černá"; JStr "Procházková"; JStr "Kučerová"; JStr "Veselá";
   JStr "Horáková"; JStr "Němcová"; JStr "Marková"; JStr "Pokorná";
   JStr "Pavlíková"; JStr "Sýkorová"; JStr "Králová"; JStr "Růžičková"].

(** A [Set] of Numbers, in insertion order; membership is SameValueZero,
    under which NaN is equal to itself. *)
Definition NumberSet : Type := list timevalue.

Definition same_value_zero (a b : timevalue) : bool :=
  match a, b with
  | Some x, Some y => x =? y
  | None, None => true
  | _, _ => false
  end.

Definition Set_has (s : NumberSet) (x : timevalue) : bool :=
  existsb (same_value_zero x) s.

Definition Set_add (s : NumberSet) (x : timevalue) : NumberSet :=
  if Set_has s x then s else s ++ [x].

(** [array.push(x)].  The length of an array is at most [2 ^ 32 - 1]: on
    an array of that length [push] throws a RangeError, the new length
    being no array length. *)
Definition maxArrayLength : Z := 4294967295.

Definition push {A} (array : list A) (x : A) : outcome (list A) :=
  if Z.of_nat (List.length array) <? maxArrayLength then Return (array ++ [x])
  else Throw RangeError.

(** [a - b] and [a + b] on integral Numbers or NaN. *)
Definition minus (a b : timevalue) : timevalue :=
  match a, b with
  | Some x, Some y => Some (fl (x - y))
  | _, _ => None
  end.

Definition plus (a b : timevalue) : timevalue :=
  match a, b with
  | Some x, Some y => Some (fl (x + y))
  | _, _ => None
  end.

(** [Math.floor(r * x)]. *)
Definition floor_times (r : unit_double) (x : timevalue) : timevalue :=
  option_map (floor_mul r) x.

Section Program.
Variable w : World.

(** ToNumber.  An ordinary object converts through [valueOf] (which
    returns the object) and [toString]; an own data property [toString]
    hides the callable one, which is a TypeError, and the inherited one
    gives ["[object Object]"], which is not a number. *)
Definition ToNumber (v : jsval) : outcome number :=
  match v with
  | JUndefined => Return NaN
  | JNull => Return (ofZ 0)
  | JBool b => Return (ofZ (if b then 1 else 0))
  | JNum n => Return n
  | JStr s => Return (StringToNumber w s)
  | JObj props => if has_key props "toString" then Throw TypeError else Return NaN
  end.

(** [Math.random()] and [new Date()] read the next value of their oracle. *)
Definition Math_random : M unit_double :=
  fun st => Return (random w (draws st), {| draws := S (draws st); reads := reads st |}).

Definition new_Date : M timevalue :=
  fun st => Return (Some (clock w (reads st)), {| draws := draws st; reads := S (reads st) |}).

(** [new Date(value)], of a Date or of a Number. *)
Definition new_Date_of (value : timevalue) : timevalue := TimeClip value.

Definition randomInt (max : Z) : M Z :=
  r <- Math_random ;;
  ret (floor_mul r max).

Definition getGender (index : Z) : M jsval :=
  if index <? len genders then ret (at_index genders index)
  else
    i <- randomInt (len genders) ;;
    ret (at_index genders i).

Definition getWorkload (index : Z) : M jsval :=
  if index <? len workloads then ret (at_index workloads index)
  else
    i <- randomInt (len workloads) ;;
    ret (at_index workloads i).

Definition getName (index : Z) (gender : jsval) : M jsval :=
  let list := if strict_eq_string gender "male" then maleNames else femaleNames in
  if index <? len list then ret (at_index list index)
  else
    i <- randomInt (len list) ;;
    ret (at_index list i).

Definition getSurname (index : Z) (gender : jsval) : M jsval :=
  let list := if strict_eq_string gender "male" then male else female in
  if index <? len list then ret (at_index list index)
  else
    i <- randomInt (len list) ;;
    ret (at_index list i).

(** [d = new Date(now); d.setFullYear(d.getFullYear() - v); d.getTime()]:
    the instant [v] years before [now]. *)
Definition yearsBefore (now : timevalue) (v : jsval) : outcome timevalue :=
  let d := new_Date_of now in
  match ToNumber v with
  | Return n => Return (getTime (setFullYear w d (sub (getFullYear w d) n)))
  | Throw e => Throw e
  | OutOfFuel => OutOfFuel
  end.

(** The [do ... while (usedBirthdates.has(ts))] loop; [tries] bounds the
    number of draws. *)
Fixpoint do_while (tries : nat) (minTime diff : timevalue)
    (usedBirthdates : NumberSet) : M timevalue :=
  match tries with
  | O => out_of_fuel
  | S tries' =>
      r <- Math_random ;;
      let ts := plus minTime (floor_times r diff) in
      if Set_has usedBirthdates ts
      then do_while tries' minTime diff usedBirthdates
      else ret ts
  end.

(** Returns the birthdate and the set as the call leaves it. *)
Definition generateUniqueBirthdate (tries : nat) (age : jsval)
    (usedBirthdates : NumberSet) : M (string * NumberSet) :=
  now <- new_Date ;;
  age_max <- lift (Get age "max") ;;
  minTime <- lift (yearsBefore now age_max) ;;
  age_min <- lift (Get age "min") ;;
  maxTime <- lift (yearsBefore now age_min) ;;
  let diff := minus maxTime minTime in
  ts <- do_while tries minTime diff usedBirthdates ;;
  let usedBirthdates := Set_add usedBirthdates ts in
  iso <- lift (toISOString (new_Date_of ts)) ;;
  ret (iso, usedBirthdates).

(** The body of the loop of [main] at index [i]. *)
Definition iteration (tries : nat) (age : jsval) (i : Z)
    (usedBirthdates : NumberSet) : M (Employee * NumberSet) :=
  gender <- getGender i ;;
  workload <- getWorkload i ;;
  name <- getName i gender ;;
  surname <- getSurname i gender ;;
  b <- generateUniqueBirthdate tries age usedBirthdates ;;
  ret ({| gender := gender; birthdate := fst b; name := name;
          surname := surname; workload := workload |}, snd b).

(** [for (let i = 0; i < count; i++) { ...; dtoOut.push(...) }]: [fuel]
    bounds the number of iterations.  The counter [i] is a Number, and
    [i++] rounds as every sum does. *)
Fixpoint for_loop (tries fuel : nat) (count age : jsval) (i : Z)
    (dtoOut : list Employee) (usedBirthdates : NumberSet) : M (list Employee) :=
  if less_than i count then
    match fuel with
    | O => out_of_fuel
    | S fuel' =>
        e <- iteration tries age i usedBirthdates ;;
        dtoOut <- lift (push dtoOut (fst e)) ;;
        for_loop tries fuel' count age (fl (i + 1)) dtoOut (snd e)
    end
  else ret dtoOut.

Definition main (fuel : nat) (dtoIn : jsval) : outcome (list Employee) :=
  run (count <- lift (Get dtoIn "count") ;;
       age <- lift (Get dtoIn "age") ;;
       if negb (ToBoolean dtoIn) || negb (typeof count =? "number")%string
          || negb (ToBoolean age)
       then ret []
       else for_loop fuel fuel count age 0 [] []).

End Program.

(* ===================================================================== *)
(** * 6. The vocabulary of the claims *)
(* ===================================================================== *)

(** A request as the specification calls it valid: [count] is a number
    and [age] is present, that is, it passes the guard's test [!age]. *)
Definition valid_request (dtoIn : jsval) (count : number) (age : jsval) : Prop :=
  Get dtoIn "count" = Return (JNum count)
  /\ Get dtoIn "age" = Return age
  /\ ToBoolean age = true.

(** A property that is missing reads as [undefined]. *)
Definition absent (v : jsval) : Prop := v = JUndefined \/ v = JNull.

(** [n < 0] and [k <= n]. *)
Definition negative (n : number) : bool :=
  match n with
  | NaN => false
  | Infinity s => s
  | Finite m _ => m <? 0
  end.

Definition at_least (k : Z) (n : number) : bool :=
  match n with
  | NaN => false
  | Infinity s => negb s
  | Finite m e => if 0 <=? e then k <=? m * 2 ^ e else k * 2 ^ (- e) <=? m
  end.

(** The list of names and of surnames that [getName] and [getSurname]
    take for a gender. *)
Definition names_of (gender : jsval) : list jsval :=
  if strict_eq_string gender "male" then maleNames else femaleNames.

Definition surnames_of (gender : jsval) : list jsval :=
  if strict_eq_string gender "male" then male else female.

(** The record [e] is what the loop body returns at index [i], from some
    state of the run. *)
Definition produced_at (w : World) (age : jsval) (i : nat) (e : Employee) : Prop :=
  exists tries used st used' st',
    iteration w tries age (Z.of_nat i) used st = Return ((e, used'), st').

(** The birthdate of [e], the [i]-th record of a run, is the string of a
    timestamp between the [i]-th reading of the clock less [age_max] years
    and the same reading less [age_min] years. *)
Definition in_birth_window (w : World) (age_min age_max : jsval) (i : nat)
    (e : Employee) : Prop :=
  exists ts minTime maxTime,
    birthdate e = isoString ts
    /\ yearsBefore w (Some (clock w i)) age_max = Return (Some minTime)
    /\ yearsBefore w (Some (clock w i)) age_min = Return (Some maxTime)
    /\ minTime <= ts < maxTime.

(** The number of values of [Math.random()] the selectors read at index
    [i], and the number the run has read before index [i] when no
    birthdate had to be drawn twice. *)
Definition selector_draws (i : nat) : nat :=
  ((if 2 <=? i then 1 else 0) + (if 4 <=? i then 1 else 0)
   + (if 16 <=? i then 2 else 0))%nat.

Fixpoint draws_before (i : nat) : nat :=
  match i with
  | O => O
  | S j => (draws_before j + selector_draws j + 1)%nat
  end.

(** The date made of the first timestamp drawn for the record of index
    [i] in such a run (NaN when there is none, or no valid one). *)
Definition first_timestamp (w : World) (age : jsval) (i : nat) : timevalue :=
  let now := Some (clock w i) in
  match Get age "max", Get age "min" with
  | Return age_max, Return age_min =>
      match yearsBefore w now age_max, yearsBefore w now age_min with
      | Return minTime, Return maxTime =>
          let r := random w (draws_before i + selector_draws i) in
          new_Date_of (plus minTime (floor_times r (minus maxTime minTime)))
      | _, _ => None
      end
  | _, _ => None
  end.

Definition first_timestamps (w : World) (age : jsval) (count : nat) : list timevalue :=
  map (first_timestamp w age) (seq 0 count).

(** The local time [lt], moved to year [y] with its month, date and time
    of day. *)
Definition inYear (lt y : Z) : Z :=
  (DayFromYear y + monthStart (leapOf y) (MonthFromTime lt) + DateFromTime lt - 1) * msPerDay
  + TimeWithinDay lt.

(** A completed run of the loop of [main], from index [i] on: the records
    it appends, each the result of the loop body at its index.  The
    indices are those of an array that is not full, which the counter
    holds exactly. *)
Inductive loop_run (w : World) (tries : nat) (count age : jsval) :
  Z -> NumberSet -> state -> list Employee -> Prop :=
| loop_done i used st :
    less_than i count = false ->
    loop_run w tries count age i used st []
| loop_step i used st e used' st' es :
    less_than i count = true ->
    iteration w tries age i used st = Return ((e, used'), st') ->
    loop_run w tries count age (i + 1) used' st' es ->
    loop_run w tries count age i used st (e :: es).

(** ** The vocabulary of the further properties *)

(** [o] is a returned value. *)
Definition returned {A} (o : outcome A) : bool :=
  match o with
  | Return _ => true
  | _ => false
  end.

(** The least integer not below [m * 2 ^ e]. *)
Definition ceiling (m e : Z) : Z :=
  if 0 <=? e then m * 2 ^ e else - ((- m) / 2 ^ (- e)).

(** The timestamp [ts] is one that [generateUniqueBirthdate] can draw for
    [age]: at the [c]-th reading of the clock, from the [k]-th value of
    [Math.random()]. *)
Definition issued (w : World) (age : jsval) (c k : nat) (ts : Z) : Prop :=
  exists age_max age_min minTime maxTime,
    Get age "max" = Return age_max /\ Get age "min" = Return age_min
    /\ yearsBefore w (Some (clock w c)) age_max = Return minTime
    /\ yearsBefore w (Some (clock w c)) age_min = Return maxTime
    /\ plus minTime (floor_times (random w k) (minus maxTime minTime)) = Some ts.

(** The number of timestamps between the bounds [minTime] and [maxTime]
    that the code can draw: the upper bound is left out of a window that is
    not empty, and both bounds count when they come in the other order. *)
Definition window_size (minTime maxTime : Z) : Z :=
  if minTime <? maxTime then maxTime - minTime else minTime - maxTime + 1.

(** The host's local time is UTC plus [offset], all year. *)
Definition fixed_offset (w : World) (offset : Z) : Prop :=
  forall t isUTC, LocalTZA w t isUTC = offset.

(** The set holds [i] timestamps, distinct and all among the [n] from [lo]
    on. *)
Definition within (lo n : Z) (i : Z) (used : NumberSet) : Prop :=
  exists tss, used = map Some tss /\ NoDup tss /\ Z.of_nat (List.length tss) = i
              /\ forall x, In x tss -> lo <= x < lo + n.

(* ===================================================================== *)
(** * 7. Sample runs *)
(* ===================================================================== *)

(** A world to run the program in: draws that differ, a clock that ticks
    once per reading, central European time.  No run below converts a
    string to a number. *)
Definition world0 : World :=
  {| random := fun n =>
       {| significand := (Z.of_nat n * 5559917313492231 + 12345) mod 2 ^ 53;
          shift := 0 |};
     clock := fun n => 1793602800123 + Z.of_nat n;
     LocalTZA := fun _ _ => 3600000;
     StringToNumber := fun _ => NaN |}.

(** A world whose clock stands still during the run. *)
Definition world1 : World :=
  {| random := random world0;
     clock := fun _ => 1793602800123;
     LocalTZA := LocalTZA world0;
     StringToNumber := StringToNumber world0 |}.

Definition request (count : number) (age_min age_max : Z) : jsval :=
  JObj [("count", JNum count);
        ("age", JObj [("min", JNum (ofZ age_min)); ("max", JNum (ofZ age_max))])].

Definition age_20_30 : jsval := JObj [("min", JNum (ofZ 20)); ("max", JNum (ofZ 30))].
Definition age_30_30 : jsval := JObj [("min", JNum (ofZ 30)); ("max", JNum (ofZ 30))].

(** The ages 30.25 and 30.5. *)
Definition age_quarter_half : jsval :=
  JObj [("min", JNum (Finite 121 (-2))); ("max", JNum (Finite 61 (-1)))].

Definition records_of (o : outcome (list Employee)) : list Employee :=
  match o with
  | Return l => l
  | _ => []
  end.

Definition records20 : list Employee :=
  Eval vm_compute in records_of (main world0 20 (request (ofZ 20) 20 30)).

(** The record of index 0, born at the given instant. *)
Definition first_record_born (birthdate : string) : Employee :=
  {| gender := JStr "male"; birthdate := birthdate;
     name := JStr "Jan"; surname := JStr "Novák"; workload := JNum (ofZ 10) |}.

Definition first_record : Employee := first_record_born "1996-11-02T07:00:00.123Z".

Definition record2 : Employee := Eval vm_compute in nth 2 records20 first_record.
Definition record5 : Employee := Eval vm_compute in nth 5 records20 first_record.

(** Pairwise distinct, as a test. *)
Fixpoint distinct (l : NumberSet) : bool :=
  match l with
  | [] => true
  | x :: rest => negb (Set_has rest x) && distinct rest
  end.

(** The records for [count = 2.5]. *)
Definition records_two_and_a_half : list Employee :=
  Eval vm_compute in records_of (main world0 3 (request (Finite 5 (-1)) 20 30)).

(** The record for the ages in the other order: [min] 30 and [max] 20. *)
Definition records_inverted : list Employee :=
  Eval vm_compute in records_of (main world0 1 (request (ofZ 1) 30 20)).

(* ===================================================================== *)
(** * 8. Facts about the model *)
(* ===================================================================== *)

(** ** Rounding to binary64 *)

Example round53_exact : round53 (2 ^ 53) = 2 ^ 53.
Proof. reflexivity. Qed.

Example round53_tie_even : round53 (2 ^ 53 + 1) = 2 ^ 53 /\ round53 (2 ^ 53 + 3) = 2 ^ 53 + 4.
Proof. split; reflexivity. Qed.

Example floor_mul_half : floor_mul {| significand := 2 ^ 52; shift := 0 |} 16 = 8.
Proof. reflexivity. Qed.

Lemma pow2_pos (k : Z) : 0 <= k -> 0 < 2 ^ k.
Proof. intros; apply Z.pow_pos_nonneg; lia. Qed.

Lemma pow2_split (s : Z) : 1 <= s -> 2 ^ s = 2 * 2 ^ (s - 1).
Proof.
  intros Hs. replace s with (Z.succ (s - 1)) at 1 by lia.
  apply Z.pow_succ_r; lia.
Qed.

(** Rounding to the nearest multiple of [2 ^ s] moves [n] by at most half
    of [2 ^ s]. *)
Lemma rne_shift_error (n s : Z) :
  0 <= n -> 1 <= s ->
  Z.abs (rne_shift n s * 2 ^ s - n) <= 2 ^ (s - 1).
Proof.
  intros Hn Hs. unfold rne_shift.
  pose proof (pow2_split s Hs) as H2.
  pose proof (pow2_pos (s - 1) ltac:(lia)) as Hh.
  pose proof (Z.div_mod n (2 ^ s) ltac:(lia)) as Hdm.
  pose proof (Z.mod_pos_bound n (2 ^ s) ltac:(lia)) as Hr.
  set (q := n / 2 ^ s) in *. set (r := n mod 2 ^ s) in *.
  set (h := 2 ^ (s - 1)) in *.
  destruct (r <? h) eqn:E1; [apply Z.ltb_lt in E1; nia|apply Z.ltb_ge in E1].
  destruct (h <? r) eqn:E2; [apply Z.ltb_lt in E2; nia|apply Z.ltb_ge in E2].
  destruct (Z.even q); nia.
Qed.

Lemma round53_nonneg (n : Z) : 0 <= n -> 0 <= round53 n.
Proof.
  intros Hn. unfold round53.
  destruct (Z.log2 n - 52 <=? 0) eqn:E; [lia|apply Z.leb_gt in E].
  pose proof (rne_shift_error n (Z.log2 n - 52) Hn ltac:(lia)).
  pose proof (pow2_split (Z.log2 n - 52) ltac:(lia)).
  pose proof (pow2_pos (Z.log2 n - 52 - 1) ltac:(lia)).
  unfold rne_shift in *.
  pose proof (Z.div_pos n (2 ^ (Z.log2 n - 52)) Hn ltac:(lia)).
  repeat match goal with |- context [if ?b then _ else _] => destruct b end; nia.
Qed.

(** The relative error of rounding to 53 bits is at most [2 ^ -53]. *)
Lemma round53_error (n : Z) :
  0 <= n -> Z.abs (round53 n - n) * 2 ^ 53 <= n.
Proof.
  intros Hn. unfold round53.
  destruct (Z.log2 n - 52 <=? 0) eqn:E; [apply Z.leb_le in E|apply Z.leb_gt in E].
  - rewrite Z.sub_diag. simpl. lia.
  - pose proof (rne_shift_error n (Z.log2 n - 52) Hn ltac:(lia)) as He.
    assert (Hpos : 0 < n) by (destruct (Z.eq_dec n 0); [subst; simpl in E; lia|lia]).
    pose proof (Z.log2_spec n Hpos) as [Hlo _].
    replace (Z.log2 n) with ((Z.log2 n - 52 - 1) + 53) in Hlo at 1 by lia.
    rewrite Z.pow_add_r in Hlo by lia.
    nia.
Qed.

Lemma round53_exact_below (n : Z) : 0 <= n <= 2 ^ 53 -> round53 n = n.
Proof.
  intros Hn. destruct (Z.eq_dec n (2 ^ 53)) as [->|Hne]; [reflexivity|].
  pose proof (round53_error n ltac:(lia)).
  assert (Z.abs (round53 n - n) < 1) by nia. lia.
Qed.

Lemma fl_nonneg (z : Z) : 0 <= z -> fl z = round53 z.
Proof. intros Hz. unfold fl. destruct (z <? 0) eqn:E; [apply Z.ltb_lt in E; lia|reflexivity]. Qed.

Lemma fl_neg (z : Z) : z <= 0 -> fl z = - round53 (- z).
Proof.
  intros Hz. unfold fl. destruct (z <? 0) eqn:E; [reflexivity|].
  apply Z.ltb_ge in E. replace z with 0 by lia. reflexivity.
Qed.

Lemma fl_exact (z : Z) : Z.abs z <= 2 ^ 53 -> fl z = z.
Proof.
  intros Hz. destruct (Z.le_gt_cases 0 z).
  - rewrite fl_nonneg by lia. apply round53_exact_below. lia.
  - rewrite fl_neg by lia. rewrite round53_exact_below; lia.
Qed.

(** The rounded product of a number below 1 and a positive [x] stays
    below [x]: the factor is at most [1 - 2 ^ -53], which leaves more
    room than the rounding takes. *)
Lemma round53_product_below (m x : Z) :
  0 <= m < 2 ^ 53 -> 0 < x -> round53 (m * x) < 2 ^ 53 * x.
Proof.
  intros Hm Hx.
  pose proof (round53_error (m * x) ltac:(nia)) as He.
  assert (Hp : 2 ^ 53 = 9007199254740992) by reflexivity.
  rewrite Hp in *. nia.
Qed.

Lemma floor_mul_range (r : unit_double) (x : Z) :
  in_unit_interval r -> 0 < x -> 0 <= floor_mul r x < x.
Proof.
  intros [Hm Hs] Hx. unfold floor_mul.
  rewrite fl_nonneg by nia.
  pose proof (round53_nonneg (significand r * x) ltac:(nia)) as H0.
  pose proof (round53_product_below _ _ Hm Hx) as Hlt.
  pose proof (pow2_pos (shift r) ltac:(lia)) as Hp.
  rewrite Z.pow_add_r by lia.
  split.
  - apply Z.div_pos; nia.
  - apply Z.div_lt_upper_bound; nia.
Qed.

Lemma floor_mul_zero (r : unit_double) : floor_mul r 0 = 0.
Proof. unfold floor_mul. rewrite Z.mul_0_r. reflexivity. Qed.

Lemma floor_mul_range_neg (r : unit_double) (x : Z) :
  in_unit_interval r -> x < 0 -> x <= floor_mul r x <= 0.
Proof.
  intros [Hm Hs] Hx. unfold floor_mul.
  rewrite fl_neg by nia.
  replace (- (significand r * x)) with (significand r * (- x)) by lia.
  pose proof (round53_nonneg (significand r * (- x)) ltac:(nia)) as H0.
  pose proof (round53_product_below _ (- x) Hm ltac:(lia)) as Hlt.
  pose proof (pow2_pos (shift r) ltac:(lia)) as Hp.
  pose proof (pow2_pos (53 + shift r) ltac:(lia)) as Hp'.
  rewrite Z.pow_add_r in * by lia.
  split.
  - apply Z.div_le_lower_bound; nia.
  - apply Z.div_le_upper_bound; nia.
Qed.

(** Between [2 ^ 53] and [2 ^ 54] the binary64 numbers are the even
    integers. *)
Lemma round53_wide (n : Z) :
  2 ^ 53 < n < 2 ^ 54 ->
  exists k, round53 n = 2 * k /\ Z.abs (round53 n - n) <= 1.
Proof.
  intros Hn.
  assert (Hl : Z.log2 n = 53).
  { apply Z.log2_unique; [lia|]. change (53 + 1) with 54. lia. }
  pose proof (rne_shift_error n 1 ltac:(lia) ltac:(lia)) as He.
  unfold round53. rewrite Hl. change (53 - 52) with 1. change (1 <=? 0) with false. cbv iota.
  exists (rne_shift n 1). change (2 ^ 1) with 2 in *. change (2 ^ (1 - 1)) with 1 in He.
  split; lia.
Qed.

(** From [2 ^ 106] on, a number rounded to 53 bits is a multiple of
    [2 ^ 54]. *)
Lemma round53_multiple (n : Z) :
  2 ^ 106 <= n -> exists k, round53 n = 2 ^ 54 * k.
Proof.
  intros Hn.
  assert (Hl : 106 <= Z.log2 n).
  { change 106 with (Z.log2 (2 ^ 106)). apply Z.log2_le_mono. exact Hn. }
  unfold round53.
  destruct (Z.log2 n - 52 <=? 0) eqn:E; [apply Z.leb_le in E; lia|].
  exists (rne_shift n (Z.log2 n - 52) * 2 ^ (Z.log2 n - 52 - 54)).
  replace (Z.log2 n - 52) with (54 + (Z.log2 n - 52 - 54)) at 2 by lia.
  rewrite Z.pow_add_r by lia. ring.
Qed.

(** [Math.floor(r * diff)] for the difference [diff = fl d] of two time
    values more than [2 ^ 53] ms apart: the difference is rounded to an
    even integer, and the result still stays below [d]. *)
Lemma floor_mul_fl_wide (r : unit_double) (d : Z) :
  in_unit_interval r -> 2 ^ 53 < d < 2 ^ 54 ->
  0 <= floor_mul r (fl d) < d.
Proof.
  intros Hr Hd.
  destruct (round53_wide d Hd) as (k & Hk & Herr).
  rewrite fl_nonneg by lia.
  assert (HD : 2 ^ 53 <= round53 d) by lia.
  pose proof (floor_mul_range r (round53 d) Hr ltac:(lia)) as [Hlo Hhi].
  split; [exact Hlo|].
  destruct Hr as [Hm Hs].
  unfold floor_mul in *.
  set (n := significand r * round53 d) in *.
  assert (Hn0 : 0 <= n) by (unfold n; nia).
  rewrite fl_nonneg in * by lia.
  destruct (Z.eq_dec (shift r) 0) as [Hs0|Hs0].
  - rewrite Hs0 in *. change (53 + 0) with 53 in *.
    destruct (Z.lt_ge_cases n (2 ^ 106)) as [Hsmall|Hbig].
    + pose proof (round53_error n Hn0) as He.
      assert (round53 n / 2 ^ 53 < 2 ^ 53 + 1); [|lia].
      apply Z.div_lt_upper_bound; [lia|].
      assert (Hp : 2 ^ 53 = 9007199254740992) by reflexivity.
      assert (Hq : 2 ^ 106 = 9007199254740992 * 9007199254740992) by reflexivity.
      rewrite Hp, Hq in *. nia.
    + destruct (round53_multiple n Hbig) as (j & Hj).
      rewrite Hj in *.
      replace (2 ^ 54 * j) with (2 * j * 2 ^ 53) in * by (change (2 ^ 54) with (2 * 2 ^ 53); ring).
      rewrite Z.div_mul in * by lia. lia.
  - assert (Hs1 : 1 <= shift r) by lia.
    assert (round53 n / 2 ^ (53 + shift r) <= round53 n / 2 ^ 54).
    { apply Z.div_le_compat_l; [apply round53_nonneg; lia|].
      split; [reflexivity|]. apply Z.pow_le_mono_r; lia. }
    pose proof (round53_product_below (significand r) (round53 d) Hm ltac:(lia)) as Hlt.
    fold n in Hlt.
    assert (round53 n / 2 ^ 54 < d); [|lia].
    apply Z.div_lt_upper_bound; [reflexivity|].
    change (2 ^ 54) with (2 * 2 ^ 53). lia.
Qed.

(** ** The calendar *)

Example iso_epoch : isoString 0 = "1970-01-01T00:00:00.000Z".
Proof. reflexivity. Qed.
Example iso1 : isoString 1793602800123 = "2026-11-02T07:00:00.123Z".
Proof. vm_compute. reflexivity. Qed.
Example iso2 : isoString (-8640000000000000) = "-271821-04-20T00:00:00.000Z".
Proof. vm_compute. reflexivity. Qed.
Example iso3 : isoString (8640000000000000) = "+275760-09-13T00:00:00.000Z".
Proof. vm_compute. reflexivity. Qed.
Example iso4 : isoString (951782400000 - 1) = "2000-02-28T23:59:59.999Z".
Proof. vm_compute. reflexivity. Qed.
Example iso5 : isoString (-62198755200000) = "-000001-01-01T00:00:00.000Z".
Proof. vm_compute. reflexivity. Qed.

Lemma DayFromYear_succ (y : Z) : DayFromYear (y + 1) = DayFromYear y + DaysInYear y.
Proof.
  unfold DayFromYear, DaysInYear.
  destruct (y mod 4 =? 0) eqn:E4; destruct (y mod 100 =? 0) eqn:E100;
    destruct (y mod 400 =? 0) eqn:E400; cbn [negb];
    rewrite ?Z.eqb_eq, ?Z.eqb_neq in *; Z.div_mod_to_equations; lia.
Qed.

Lemma YearFromDay_spec (d : Z) :
  DayFromYear (YearFromDay d) <= d < DayFromYear (YearFromDay d + 1).
Proof.
  unfold YearFromDay.
  set (y := 1970 + 400 * d / 146097).
  destruct (d <? DayFromYear y) eqn:E1; [apply Z.ltb_lt in E1|apply Z.ltb_ge in E1].
  - replace (y - 1 + 1) with y by lia. split; [|lia].
    unfold DayFromYear in *. subst y. Z.div_mod_to_equations. lia.
  - destruct (DayFromYear (y + 1) <=? d) eqn:E2; [apply Z.leb_le in E2|apply Z.leb_gt in E2].
    + split; [lia|]. unfold DayFromYear in *. subst y. Z.div_mod_to_equations. lia.
    + lia.
Qed.

Lemma length_append (s t : string) :
  String.length (s ++ t)%string = (String.length s + String.length t)%nat.
Proof. induction s as [|c s IH]; simpl; [reflexivity|now rewrite IH]. Qed.

Lemma append_inj (s1 s2 t1 t2 : string) :
  String.length s1 = String.length s2 ->
  (s1 ++ t1)%string = (s2 ++ t2)%string -> s1 = s2 /\ t1 = t2.
Proof.
  revert s2. induction s1 as [|c s1 IH]; intros [|c2 s2] Hlen Heq; simpl in *; try discriminate.
  - now split.
  - injection Heq as -> Heq. injection Hlen as Hlen.
    destruct (IH s2 Hlen Heq) as [-> ->]. now split.
Qed.

Lemma decimal_length (k : nat) (n : Z) : String.length (decimal k n) = k.
Proof. induction k as [|k IH]; simpl; [reflexivity|now rewrite IH]. Qed.

Lemma digit_inj (a b : Z) : digit a = digit b -> a mod 10 = b mod 10.
Proof.
  unfold digit. intros H.
  pose proof (Z.mod_pos_bound a 10 ltac:(lia)) as Ha.
  pose proof (Z.mod_pos_bound b 10 ltac:(lia)) as Hb.
  apply (f_equal N_of_ascii) in H.
  rewrite !N_ascii_embedding in H by lia. lia.
Qed.

Lemma decimal_inj_mod (k : nat) (n m : Z) :
  decimal k n = decimal k m -> n mod 10 ^ Z.of_nat k = m mod 10 ^ Z.of_nat k.
Proof.
  induction k as [|k IH]; intros H.
  - simpl. now rewrite !Z.mod_1_r.
  - simpl in H. injection H as Hd Hrest.
    apply digit_inj in Hd. apply IH in Hrest.
    rewrite Nat2Z.inj_succ, Z.pow_succ_r by lia.
    rewrite (Z.mul_comm 10).
    assert (Hp : 0 < 10 ^ Z.of_nat k) by (apply Z.pow_pos_nonneg; lia).
    rewrite !Z.rem_mul_r by lia. now rewrite Hd, Hrest.
Qed.

Lemma decimal_inj (k : nat) (n m : Z) :
  0 <= n < 10 ^ Z.of_nat k -> 0 <= m < 10 ^ Z.of_nat k ->
  decimal k n = decimal k m -> n = m.
Proof.
  intros Hn Hm H. apply decimal_inj_mod in H.
  now rewrite !Z.mod_small in H by assumption.
Qed.

Lemma DaysInYear_cases (y : Z) : DaysInYear y = 365 \/ DaysInYear y = 366.
Proof.
  unfold DaysInYear.
  destruct (negb (y mod 4 =? 0)); auto.
  destruct (negb (y mod 100 =? 0)); auto.
  destruct (negb (y mod 400 =? 0)); auto.
Qed.

Lemma DayWithinYear_range (t : Z) :
  0 <= DayWithinYear t < 365 + InLeapYear t.
Proof.
  unfold DayWithinYear, InLeapYear, leapOf, YearFromTime.
  pose proof (YearFromDay_spec (Day t)) as H.
  rewrite DayFromYear_succ in H.
  destruct (DaysInYear_cases (YearFromDay (Day t))) as [E|E]; rewrite E in *; cbn; lia.
Qed.

Lemma MonthFromTime_range (t : Z) : 0 <= MonthFromTime t <= 11.
Proof.
  unfold MonthFromTime, monthOfDay.
  repeat match goal with |- context [if ?b then _ else _] => destruct b end; lia.
Qed.

Lemma DateFromTime_range (t : Z) : 1 <= DateFromTime t <= 31.
Proof.
  pose proof (DayWithinYear_range t) as H.
  unfold DateFromTime, MonthFromTime, monthOfDay.
  assert (HL : InLeapYear t = 0 \/ InLeapYear t = 1)
    by (unfold InLeapYear, leapOf; destruct (_ =? _); auto).
  repeat match goal with
         | |- context [if ?a <? ?b then _ else _] =>
             destruct (Z.ltb_spec a b)
         end; cbn [monthStart]; lia.
Qed.

Lemma YearFromTime_range (t : Z) :
  valid_time t -> -271821 <= YearFromTime t <= 275760.
Proof.
  unfold valid_time, timeLimit, YearFromTime. intros Ht.
  pose proof (YearFromDay_spec (Day t)) as H.
  assert (Hd : -100000000 <= Day t <= 100000000)
    by (unfold Day, msPerDay; Z.div_mod_to_equations; lia).
  unfold DayFromYear in H. Z.div_mod_to_equations. lia.
Qed.

(** A time value is its day and its time within the day, and the day is
    given by year, month and date. *)
Lemma time_fields (t : Z) :
  t = (DayFromYear (YearFromTime t)
       + monthStart (InLeapYear t) (MonthFromTime t) + DateFromTime t - 1) * msPerDay
      + HourFromTime t * msPerHour + MinFromTime t * msPerMinute
      + SecFromTime t * msPerSecond + msFromTime t.
Proof.
  unfold DateFromTime, DayWithinYear, Day, HourFromTime, MinFromTime, SecFromTime,
    msFromTime, msPerDay, msPerHour, msPerMinute, msPerSecond.
  generalize (DayFromYear (YearFromTime t)) (monthStart (InLeapYear t) (MonthFromTime t)).
  intros a b. Z.div_mod_to_equations. lia.
Qed.

Lemma yearString_length (y : Z) :
  String.length (yearString y) = if (0 <=? y) && (y <=? 9999) then 4%nat else 7%nat.
Proof.
  unfold yearString. destruct ((0 <=? y) && (y <=? 9999)).
  - apply decimal_length.
  - rewrite length_append, decimal_length. now destruct (y <? 0).
Qed.

Lemma yearString_inj (y1 y2 : Z) :
  Z.abs y1 < 1000000 -> Z.abs y2 < 1000000 ->
  yearString y1 = yearString y2 -> y1 = y2.
Proof.
  intros H1 H2 H.
  pose proof (f_equal String.length H) as Hlen.
  rewrite !yearString_length in Hlen.
  unfold yearString in H.
  destruct ((0 <=? y1) && (y1 <=? 9999)) eqn:E1;
    destruct ((0 <=? y2) && (y2 <=? 9999)) eqn:E2; try discriminate.
  - apply andb_prop in E1 as [E1 E1']. apply andb_prop in E2 as [E2 E2'].
    rewrite Z.leb_le in *.
    apply decimal_inj in H; [assumption| |]; change (10 ^ Z.of_nat 4) with 10000; lia.
  - apply append_inj in H as [Hs Hd]; [|now destruct (y1 <? 0), (y2 <? 0)].
    apply decimal_inj in Hd; try (change (10 ^ Z.of_nat 6) with 1000000; lia).
    destruct (Z.ltb_spec y1 0), (Z.ltb_spec y2 0); try discriminate; lia.
Qed.

Lemma string_tail_inj (c1 c2 : ascii) (s1 s2 : string) :
  String c1 s1 = String c2 s2 -> s1 = s2.
Proof. intros H. now injection H. Qed.

(** Distinct valid time values have distinct ISO strings. *)
Lemma isoString_inj (t1 t2 : Z) :
  valid_time t1 -> valid_time t2 -> isoString t1 = isoString t2 -> t1 = t2.
Proof.
  intros V1 V2 H.
  pose proof (YearFromTime_range t1 V1) as Y1.
  pose proof (YearFromTime_range t2 V2) as Y2.
  pose proof (MonthFromTime_range t1) as M1. pose proof (MonthFromTime_range t2) as M2.
  pose proof (DateFromTime_range t1) as D1. pose proof (DateFromTime_range t2) as D2.
  assert (Hh : forall t, 0 <= HourFromTime t < 100)
    by (intro; unfold HourFromTime; Z.div_mod_to_equations; lia).
  assert (Hm : forall t, 0 <= MinFromTime t < 100)
    by (intro; unfold MinFromTime; Z.div_mod_to_equations; lia).
  assert (Hs : forall t, 0 <= SecFromTime t < 100)
    by (intro; unfold SecFromTime; Z.div_mod_to_equations; lia).
  assert (Hms : forall t, 0 <= msFromTime t < 1000)
    by (intro; unfold msFromTime, msPerSecond; Z.div_mod_to_equations; lia).
  unfold isoString in H.
  pose proof (f_equal String.length H) as Hlen.
  rewrite !length_append, !decimal_length in Hlen.
  apply append_inj in H as [Hy H]; [|cbn [String.length] in Hlen; lia].
  apply yearString_inj in Hy; [|lia|lia].
  cbn [append] in H. apply string_tail_inj in H.
  apply append_inj in H as [Hmo H]; [|now rewrite !decimal_length].
  cbn [append] in H. apply string_tail_inj in H.
  apply append_inj in H as [Hda H]; [|now rewrite !decimal_length].
  cbn [append] in H. apply string_tail_inj in H.
  apply append_inj in H as [Hho H]; [|now rewrite !decimal_length].
  cbn [append] in H. apply string_tail_inj in H.
  apply append_inj in H as [Hmi H]; [|now rewrite !decimal_length].
  cbn [append] in H. apply string_tail_inj in H.
  apply append_inj in H as [Hse H]; [|now rewrite !decimal_length].
  cbn [append] in H. apply string_tail_inj in H.
  apply append_inj in H as [Hmil _]; [|now rewrite !decimal_length].
  apply decimal_inj in Hmo; try (change (10 ^ Z.of_nat 2) with 100; lia).
  apply decimal_inj in Hda; try (change (10 ^ Z.of_nat 2) with 100; lia).
  apply decimal_inj in Hho; try (change (10 ^ Z.of_nat 2) with 100; auto).
  apply decimal_inj in Hmi; try (change (10 ^ Z.of_nat 2) with 100; auto).
  apply decimal_inj in Hse; try (change (10 ^ Z.of_nat 2) with 100; auto).
  apply decimal_inj in Hmil; try (change (10 ^ Z.of_nat 3) with 1000; auto).
  assert (HL : InLeapYear t1 = InLeapYear t2) by (unfold InLeapYear; now rewrite Hy).
  rewrite (time_fields t1), (time_fields t2).
  replace (MonthFromTime t1) with (MonthFromTime t2) by lia.
  now rewrite Hy, HL, Hda, Hho, Hmi, Hse, Hmil.
Qed.

(** ** The effects *)

Lemma bind_Return {A B} (c : M A) (k : A -> M B) st b st' :
  bind c k st = Return (b, st') ->
  exists a st1, c st = Return (a, st1) /\ k a st1 = Return (b, st').
Proof.
  unfold bind. destruct (c st) as [[a st1]| |]; try discriminate.
  intros H. now exists a, st1.
Qed.

Lemma lift_Return {A} (o : outcome A) st a st' :
  lift o st = Return (a, st') -> o = Return a /\ st' = st.
Proof. unfold lift. destruct o; intros H; inversion H; now subst. Qed.

Lemma ret_Return {A} (a b : A) st st' :
  ret a st = Return (b, st') -> b = a /\ st' = st.
Proof. unfold ret. intros H. inversion H. now subst. Qed.

(** Takes a completed monadic computation apart, step by step. *)
Ltac inv_run H :=
  match type of H with
  | bind _ _ _ = Return _ =>
      let a := fresh "a" in let st := fresh "st" in
      let H1 := fresh "Hc" in let H2 := fresh "Hk" in
      apply bind_Return in H as (a & st & H1 & H2); inv_run H2
  | lift _ _ = Return _ =>
      let H1 := fresh "Ho" in let H2 := fresh "Hst" in
      apply lift_Return in H as [H1 H2]; subst
  | ret _ _ = Return _ =>
      let H1 := fresh "Hv" in let H2 := fresh "Hst" in
      apply ret_Return in H as [H1 H2]; subst
  | _ => idtac
  end.

Lemma Some_inj {A} (a b : A) : Some a = Some b -> a = b.
Proof. intros H. now injection H. Qed.

Lemma Return_inj {A} (a b : A) : Return a = Return b -> a = b.
Proof. intros H. now injection H. Qed.

Lemma push_Return {A} (array : list A) (x : A) (array' : list A) :
  push array x = Return array' ->
  array' = array ++ [x] /\ Z.of_nat (List.length array) < maxArrayLength.
Proof.
  unfold push.
  destruct (Z.ltb_spec (Z.of_nat (List.length array)) maxArrayLength) as [Hlt|Hge];
    [|discriminate].
  intros H. apply Return_inj in H. now split.
Qed.

Lemma push_eq {A} (array : list A) (x : A) :
  Z.of_nat (List.length array) < maxArrayLength -> push array x = Return (array ++ [x]).
Proof.
  intros H. unfold push.
  now destruct (Z.ltb_spec (Z.of_nat (List.length array)) maxArrayLength); [|lia].
Qed.

(** The counter of an array that is not full is exact. *)
Lemma counter_succ (i : Z) : 0 <= i < maxArrayLength -> fl (i + 1) = i + 1.
Proof.
  unfold maxArrayLength. intros H. apply fl_exact.
  change (2 ^ 53) with 9007199254740992. lia.
Qed.

(** A loop that returns, started with the counter at the length of the
    array as [main] starts it, has made a completed run, and its array is
    within the length of arrays. *)
Lemma for_loop_run w tries fuel count age i dtoOut used st l st' :
  i = Z.of_nat (List.length dtoOut) -> i <= maxArrayLength ->
  for_loop w tries fuel count age i dtoOut used st = Return (l, st') ->
  exists es, l = dtoOut ++ es /\ loop_run w tries count age i used st es
             /\ Z.of_nat (List.length l) <= maxArrayLength.
Proof.
  revert i dtoOut used st.
  induction fuel as [|fuel IH]; intros i dtoOut used st Hi Hmax H; simpl in H.
  - destruct (less_than i count) eqn:E; [discriminate|].
    apply ret_Return in H as [-> ->].
    exists []. rewrite app_nil_r. repeat split; [now constructor|lia].
  - destruct (less_than i count) eqn:E.
    + apply bind_Return in H as ([e used1] & st1 & Hit & H).
      apply bind_Return in H as (dtoOut1 & st2 & Hpush & H).
      apply lift_Return in Hpush as [Hpush ->].
      apply push_Return in Hpush as [-> Hlen]. cbn [fst snd] in H.
      rewrite counter_succ in H by lia.
      apply IH in H as (es & -> & Hrun & Hl).
      * exists (e :: es). split; [now rewrite <- app_assoc|].
        split; [econstructor; eassumption|assumption].
      * rewrite length_app. cbn [List.length]. lia.
      * lia.
    + apply ret_Return in H as [-> ->].
      exists []. rewrite app_nil_r. repeat split; [now constructor|lia].
Qed.

(** What [main] returns for a request that passes the guard. *)
Lemma main_run w fuel dtoIn count age l :
  Get dtoIn "count" = Return count -> Get dtoIn "age" = Return age ->
  (typeof count =? "number")%string = true -> ToBoolean age = true ->
  main w fuel dtoIn = Return l ->
  loop_run w fuel count age 0 [] {| draws := 0; reads := 0 |} l.
Proof.
  intros Hc Ha Ht Hage H. unfold main, run in H.
  assert (Hd : ToBoolean dtoIn = true).
  { destruct dtoIn; try discriminate; try reflexivity;
      injection Hc as <-; discriminate. }
  unfold bind, lift in H. rewrite Hc, Ha, Hd, Ht, Hage in H. cbn [negb orb] in H.
  destruct (for_loop _ _ _ _ _ _ _ _ _) as [[l' st']| |] eqn:E; try discriminate.
  injection H as ->.
  apply for_loop_run in E as (es & -> & Hrun & _);
    [exact Hrun|reflexivity|unfold maxArrayLength; cbn; lia].
Qed.

(** ** The selectors *)

Lemma iteration_Return w tries age i used st e used' st' :
  iteration w tries age i used st = Return ((e, used'), st') ->
  exists st1 st2 st3 st4,
    getGender w i st = Return (gender e, st1)
    /\ getWorkload w i st1 = Return (workload e, st2)
    /\ getName w i (gender e) st2 = Return (name e, st3)
    /\ getSurname w i (gender e) st3 = Return (surname e, st4)
    /\ generateUniqueBirthdate w tries age used st4 = Return ((birthdate e, used'), st').
Proof.
  intros H. unfold iteration in H. inv_run H.
  injection Hv as -> ->.
  match goal with H : generateUniqueBirthdate _ _ _ _ _ = Return (?b, _) |- _ =>
    destruct b as [iso used1] end.
  cbn [fst snd gender workload name surname birthdate]. eauto 10.
Qed.

(** A selector reads [Math.random()] at most once, and never the clock. *)
Lemma randomInt_Return w max st n st' :
  randomInt w max st = Return (n, st') ->
  n = floor_mul (random w (draws st)) max
  /\ draws st' = S (draws st) /\ reads st' = reads st.
Proof.
  unfold randomInt, Math_random. intros H. inv_run H.
  injection Hc as <- <-. now cbn.
Qed.

Lemma select_Return w (list : list jsval) i st v st' :
  (if i <? len list then ret (at_index list i)
   else k <- randomInt w (len list) ;; ret (at_index list k)) st = Return (v, st') ->
  reads st' = reads st
  /\ if i <? len list then v = at_index list i /\ draws st' = draws st
     else v = at_index list (floor_mul (random w (draws st)) (len list))
          /\ draws st' = S (draws st).
Proof.
  destruct (i <? len list); intros H; inv_run H.
  - now split.
  - apply randomInt_Return in Hc as (-> & Hd & Hr). now split.
Qed.

(** ** The birthdate generator *)

Lemma Set_has_app (s : NumberSet) (x y : timevalue) :
  Set_has (s ++ [x]) y = Set_has s y || same_value_zero y x.
Proof. unfold Set_has. rewrite existsb_app. simpl. now rewrite orb_false_r. Qed.

Lemma same_value_zero_eq (a b : timevalue) : same_value_zero a b = true <-> a = b.
Proof.
  destruct a as [x|], b as [y|]; simpl; split; intros H; try discriminate; auto.
  - apply Z.eqb_eq in H. now subst.
  - injection H as ->. apply Z.eqb_refl.
Qed.

Lemma Set_has_In (s : NumberSet) (x : timevalue) : Set_has s x = true <-> In x s.
Proof.
  unfold Set_has. rewrite existsb_exists. split.
  - intros (y & Hy & E). apply same_value_zero_eq in E. now subst.
  - intros H. exists x. split; [assumption|now apply same_value_zero_eq].
Qed.

(** The loop hands out the first drawn timestamp that is not in the set. *)
Lemma do_while_Return w tries minTime diff used st ts st' :
  do_while w tries minTime diff used st = Return (ts, st') ->
  exists k, (draws st <= k < draws st')%nat
    /\ ts = plus minTime (floor_times (random w k) diff)
    /\ Set_has used ts = false
    /\ reads st' = reads st.
Proof.
  revert st. induction tries as [|tries IH]; intros st H; simpl in H; [discriminate|].
  apply bind_Return in H as (r & st1 & Hr & H).
  unfold Math_random in Hr. injection Hr as <- <-.
  match type of H with context [if ?b then _ else _] => destruct b eqn:E end.
  - apply IH in H as (k & Hk & -> & Hhas & Hreads). cbn in *.
    exists k. repeat split; auto; lia.
  - inv_run H. exists (draws st). cbn. repeat split; auto.
Qed.

Lemma TimeClip_Some (t : timevalue) (x : Z) :
  TimeClip t = Some x -> t = Some x /\ valid_time x.
Proof.
  destruct t as [y|]; simpl; [|discriminate].
  destruct (timeLimit <? Z.abs y) eqn:E; [discriminate|].
  intros H. injection H as ->. apply Z.ltb_ge in E. now split.
Qed.

Lemma TimeClip_valid (x : Z) : valid_time x -> TimeClip (Some x) = Some x.
Proof.
  unfold valid_time. intros H. simpl.
  destruct (timeLimit <? Z.abs x) eqn:E; [apply Z.ltb_lt in E; lia|reflexivity].
Qed.

(** A call that returns has read the clock once, has drawn a valid
    timestamp that the set did not hold, and has added it to the set. *)
Lemma generateUniqueBirthdate_Return w tries age used st iso used' st' :
  generateUniqueBirthdate w tries age used st = Return ((iso, used'), st') ->
  exists age_max age_min minTime maxTime k ts,
    Get age "max" = Return age_max
    /\ Get age "min" = Return age_min
    /\ yearsBefore w (Some (clock w (reads st))) age_max = Return minTime
    /\ yearsBefore w (Some (clock w (reads st))) age_min = Return maxTime
    /\ (draws st <= k < draws st')%nat
    /\ plus minTime (floor_times (random w k) (minus maxTime minTime)) = Some ts
    /\ valid_time ts
    /\ Set_has used (Some ts) = false
    /\ used' = used ++ [Some ts]
    /\ iso = isoString ts
    /\ reads st' = S (reads st).
Proof.
  intros H. unfold generateUniqueBirthdate in H.
  apply bind_Return in H as (now & st1 & Hnow & H).
  unfold new_Date in Hnow. injection Hnow as <- <-.
  apply bind_Return in H as (age_max & st2 & H1 & H). apply lift_Return in H1 as [Hmax ->].
  apply bind_Return in H as (minTime & st2 & H1 & H). apply lift_Return in H1 as [Hmin ->].
  apply bind_Return in H as (age_min & st2 & H1 & H). apply lift_Return in H1 as [Hmax' ->].
  apply bind_Return in H as (maxTime & st2 & H1 & H). apply lift_Return in H1 as [Hmin' ->].
  apply bind_Return in H as (ts & st2 & Hloop & H).
  apply bind_Return in H as (iso' & st3 & H1 & H). apply lift_Return in H1 as [Hiso ->].
  apply ret_Return in H as [Hv ->]. injection Hv as -> ->.
  apply do_while_Return in Hloop as (k & Hk & Hts & Hhas & Hreads).
  cbn [draws reads] in *.
  unfold toISOString, new_Date_of in Hiso.
  destruct (TimeClip ts) as [t|] eqn:Et; [|discriminate].
  injection Hiso as <-.
  apply TimeClip_Some in Et as [-> Hvalid].
  exists age_max, age_min, minTime, maxTime, k, t.
  unfold Set_add. rewrite Hhas. repeat split; auto; lia.
Qed.

(** ** The loop of [main] *)

Lemma iteration_reads w tries age i used st e used' st' :
  iteration w tries age i used st = Return ((e, used'), st') ->
  reads st' = S (reads st).
Proof.
  intros H. apply iteration_Return in H as (st1 & st2 & st3 & st4 & Hg & Hw & Hn & Hs & Hb).
  apply select_Return in Hg as [Hg _]. apply select_Return in Hw as [Hw _].
  apply select_Return in Hn as [Hn _]. apply select_Return in Hs as [Hs _].
  apply generateUniqueBirthdate_Return in Hb
    as (? & ? & ? & ? & ? & ? & _ & _ & _ & _ & _ & _ & _ & _ & _ & _ & Hb).
  congruence.
Qed.

(** The record at position [k] of a run is the result of the loop body at
    index [i + k], which read the clock for the [k]-th time in the run. *)
Lemma loop_run_nth w tries count age i used st es :
  loop_run w tries count age i used st es ->
  forall k e, nth_error es k = Some e ->
    exists used_k st_k used_k' st_k',
      iteration w tries age (i + Z.of_nat k) used_k st_k = Return ((e, used_k'), st_k')
      /\ reads st_k = (reads st + k)%nat.
Proof.
  induction 1 as [|i used st e used' st' es Hlt Hit Hrun IH]; intros k e0 Hk.
  - destruct k; discriminate.
  - destruct k as [|k]; simpl in Hk.
    + injection Hk as <-. exists used, st, used', st'.
      rewrite Z.add_0_r, Nat.add_0_r. now split.
    + destruct (IH k e0 Hk) as (u & s & u' & s' & Hi & Hr).
      exists u, s, u', s'. split.
      * rewrite <- Hi. f_equal. lia.
      * rewrite Hr. apply iteration_reads in Hit. lia.
Qed.

(** The timestamps a run issues are valid, pairwise distinct, and not in
    the set the run started with. *)
Lemma loop_run_fresh w tries count age i used st es :
  loop_run w tries count age i used st es ->
  exists tss, map birthdate es = map isoString tss
    /\ Forall valid_time tss
    /\ NoDup tss
    /\ forall t, In t tss -> ~ In (Some t) used.
Proof.
  induction 1 as [|i used st e used' st' es Hlt Hit Hrun IH].
  - exists []. repeat split; auto using NoDup_nil.
  - destruct IH as (tss & Hmap & Hvalid & Hnd & Hnew).
    apply iteration_Return in Hit as (_ & _ & _ & st4 & _ & _ & _ & _ & Hb).
    apply generateUniqueBirthdate_Return in Hb
      as (_ & _ & _ & _ & _ & ts & _ & _ & _ & _ & _ & _ & Hv & Hhas & -> & Hiso & _).
    exists (ts :: tss). repeat split.
    + simpl. now rewrite Hiso, Hmap.
    + now constructor.
    + constructor; [|assumption].
      intros Hin. apply (Hnew ts Hin). apply in_or_app. right. now left.
    + intros t [<-|Hin].
      * rewrite <- Set_has_In. now rewrite Hhas.
      * intros Hu. apply (Hnew t Hin). apply in_or_app. now left.
Qed.

Lemma NoDup_map_isoString (tss : list Z) :
  Forall valid_time tss -> NoDup tss -> NoDup (map isoString tss).
Proof.
  intros Hv Hnd. apply NoDup_map_NoDup_ForallPairs; [|assumption].
  intros a b Ha Hb. rewrite Forall_forall in Hv. apply isoString_inj; auto.
Qed.

(** ** Subtracting years *)

(** A sum or difference that rounds to less than [2 ^ 53] was exact. *)
Lemma fl_small_inv (z : Z) : Z.abs (fl z) < 2 ^ 53 -> fl z = z.
Proof.
  intros H. destruct (Z.le_gt_cases (Z.abs z) (2 ^ 53)) as [Hz|Hz]; [now apply fl_exact|].
  exfalso. assert (Hp : 2 ^ 53 = 9007199254740992) by reflexivity.
  destruct (Z.le_gt_cases 0 z).
  - rewrite fl_nonneg in H by assumption.
    pose proof (round53_error z ltac:(lia)). rewrite Hp in *. nia.
  - rewrite fl_neg in H by lia.
    pose proof (round53_error (- z) ltac:(lia)). rewrite Hp in *. nia.
Qed.

Lemma monthStart_range (leap m : Z) :
  0 <= leap <= 1 -> 0 <= m <= 11 -> 0 <= monthStart leap m <= 335.
Proof.
  intros Hl Hm.
  assert (Hc : m = 0 \/ m = 1 \/ m = 2 \/ m = 3 \/ m = 4 \/ m = 5 \/ m = 6 \/ m = 7
               \/ m = 8 \/ m = 9 \/ m = 10 \/ m = 11) by lia.
  repeat destruct Hc as [->|Hc]; try subst m; cbn [monthStart]; lia.
Qed.

Lemma monthStart_leap (l1 l2 m : Z) :
  0 <= l1 <= 1 -> 0 <= l2 <= 1 -> 0 <= m <= 11 ->
  Z.abs (monthStart l1 m - monthStart l2 m) <= 1.
Proof.
  intros H1 H2 Hm.
  assert (Hc : m = 0 \/ m = 1 \/ m = 2 \/ m = 3 \/ m = 4 \/ m = 5 \/ m = 6 \/ m = 7
               \/ m = 8 \/ m = 9 \/ m = 10 \/ m = 11) by lia.
  repeat destruct Hc as [->|Hc]; try subst m; cbn [monthStart]; lia.
Qed.

Lemma DayFromYear_lt (y1 y2 : Z) : y1 < y2 -> DayFromYear y1 + 365 <= DayFromYear y2.
Proof. intros H. unfold DayFromYear. Z.div_mod_to_equations. lia. Qed.

Lemma DayFromYear_bound (y : Z) :
  Z.abs (DayFromYear y) <= 100001000 -> Z.abs y <= 300000.
Proof. unfold DayFromYear. intros H. Z.div_mod_to_equations. lia. Qed.

Lemma leapOf_range (y : Z) : 0 <= leapOf y <= 1.
Proof. unfold leapOf. destruct (_ =? _); lia. Qed.



Lemma yearsBefore_number w now n :
  yearsBefore w now (JNum n)
  = Return (setFullYear w (TimeClip now) (sub (getFullYear w (TimeClip now)) n)).
Proof. reflexivity. Qed.

Lemma sub_integers (a b : Z) :
  sub (ofZ a) (ofZ b)
  = if 2 ^ 1024 <=? Z.abs (fl (a - b)) then Infinity (fl (a - b) <? 0)
    else Finite (fl (a - b)) 0.
Proof.
  unfold sub, ofZ. change (Z.min 0 0) with 0. change (0 - 0) with 0.
  change (0 <=? 0) with true. cbv iota. change (2 ^ 0) with 1.
  now rewrite !Z.mul_1_r.
Qed.

Lemma MakeDay_integer (y month date : Z) :
  0 <= month <= 11 ->
  MakeDay (Finite y 0) month date
  = Some (DayFromYear y + monthStart (leapOf y) month + date - 1).
Proof.
  intros Hm. unfold MakeDay, truncate.
  change (0 <=? 0) with true. cbv iota. change (2 ^ 0) with 1.
  replace (month / 12) with 0 by (Z.div_mod_to_equations; lia).
  replace (month mod 12) with month by (Z.div_mod_to_equations; lia).
  now rewrite Z.mul_1_r, Z.add_0_r.
Qed.

Lemma inYear_valid (lt y tz : Z) :
  Z.abs tz <= 86400000 -> valid_time (inYear lt y - tz) ->
  Z.abs (DayFromYear y) <= 100001000.
Proof.
  intros Htz Hv.
  pose proof (MonthFromTime_range lt) as HM.
  pose proof (monthStart_range (leapOf y) (MonthFromTime lt) (leapOf_range y) HM).
  pose proof (DateFromTime_range lt) as HD.
  pose proof (Z.mod_pos_bound lt msPerDay ltac:(reflexivity)) as Hmod.
  unfold valid_time, timeLimit, inYear, TimeWithinDay in *.
  generalize dependent (lt mod msPerDay). generalize dependent (DayFromYear y).
  generalize dependent (monthStart (leapOf y) (MonthFromTime lt)).
  generalize dependent (DateFromTime lt).
  unfold msPerDay. intros. lia.
Qed.

Lemma UTC_eq w (t : Z) : UTC w t = t - LocalTZA w t false.
Proof. reflexivity. Qed.

Lemma setFullYear_invalid w : setFullYear w None NaN = None.
Proof. reflexivity. Qed.

Lemma setFullYear_Infinity w (d : timevalue) (negative : bool) :
  setFullYear w d (Infinity negative) = None.
Proof. reflexivity. Qed.

Lemma setFullYear_integer w (t y : Z) :
  setFullYear w (Some t) (Finite y 0)
  = TimeClip (Some (UTC w (inYear (LocalTime w t) y))).
Proof.
  unfold setFullYear.
  rewrite MakeDay_integer by apply MonthFromTime_range.
  reflexivity.
Qed.

(** Subtracting a whole number of years from a valid date, when the result
    is a valid date: the year goes down by that number. *)
Lemma yearsBefore_integer w now a t :
  WorldOk w ->
  yearsBefore w (Some now) (JNum (ofZ a)) = Return (Some t) ->
  valid_time now /\ valid_time t
  /\ t = UTC w (inYear (LocalTime w now) (YearFromTime (LocalTime w now) - a)).
Proof.
  intros [_ Htz] H.
  rewrite yearsBefore_number in H. apply Return_inj in H.
  destruct (TimeClip (Some now)) as [t0|] eqn:E0.
  2: { change (getFullYear w None) with NaN in H. change (sub NaN (ofZ a)) with NaN in H.
       rewrite setFullYear_invalid in H. discriminate. }
  apply TimeClip_Some in E0 as [E0 Hnow]. apply Some_inj in E0 as <-.
  change (getFullYear w (Some now)) with (ofZ (YearFromTime (LocalTime w now))) in H.
  rewrite sub_integers in H.
  remember (LocalTime w now) as lt eqn:Elt.
  remember (fl (YearFromTime lt - a)) as y eqn:Ey.
  destruct (2 ^ 1024 <=? Z.abs y).
  { rewrite setFullYear_Infinity in H. discriminate. }
  rewrite setFullYear_integer, <- Elt in H.
  apply TimeClip_Some in H as [Ht Hvalid]. apply Some_inj in Ht.
  assert (Hy : Z.abs y <= 300000).
  { apply DayFromYear_bound.
    apply (inYear_valid lt y (LocalTZA w (inYear lt y) false)); [apply Htz|].
    rewrite UTC_eq in Ht. now rewrite Ht. }
  assert (Hfl : y = YearFromTime lt - a).
  { rewrite Ey. apply fl_small_inv. rewrite <- Ey.
    apply Z.le_lt_trans with (1 := Hy). reflexivity. }
  rewrite Hfl in Ht. split; [assumption|split; [assumption|symmetry; assumption]].
Qed.

(** More years before is strictly earlier. *)
Lemma yearsBefore_lt w now a1 a2 t1 t2 :
  WorldOk w -> a1 < a2 ->
  yearsBefore w (Some now) (JNum (ofZ a1)) = Return (Some t1) ->
  yearsBefore w (Some now) (JNum (ofZ a2)) = Return (Some t2) ->
  t2 < t1.
Proof.
  intros Hw Ha H1 H2.
  apply (yearsBefore_integer w now a1 t1 Hw) in H1 as (_ & _ & ->).
  apply (yearsBefore_integer w now a2 t2 Hw) in H2 as (_ & _ & ->).
  destruct Hw as [_ Htz]. rewrite !UTC_eq.
  generalize (YearFromTime (LocalTime w now)). intros y.
  generalize (LocalTime w now). intros lt.
  pose proof (Htz (inYear lt (y - a1)) false) as Hz1.
  pose proof (Htz (inYear lt (y - a2)) false) as Hz2.
  pose proof (DayFromYear_lt (y - a2) (y - a1) ltac:(lia)) as Hd.
  pose proof (monthStart_leap (leapOf (y - a1)) (leapOf (y - a2)) (MonthFromTime lt)
                (leapOf_range _) (leapOf_range _) (MonthFromTime_range lt)) as Hm.
  unfold inYear in *.
  generalize dependent (LocalTZA w). intros tz Hz1 Hz2.
  generalize dependent (DayFromYear (y - a1)). generalize dependent (DayFromYear (y - a2)).
  generalize dependent (monthStart (leapOf (y - a1)) (MonthFromTime lt)).
  generalize dependent (monthStart (leapOf (y - a2)) (MonthFromTime lt)).
  unfold msPerDay. intros. lia.
Qed.

(* ===================================================================== *)
(** * 9. The claims *)
(* ===================================================================== *)

(** ** The guard *)

(** C1: called with [null] or [undefined], [main] does not return the
    empty list.  The destructuring of line 10 comes before the guard of
    line 11, which tests [!dtoIn], and throws a TypeError. *)
Theorem main_absent_request_throws (w : World) (fuel : nat) :
  main w fuel JNull = Throw TypeError /\ main w fuel JUndefined = Throw TypeError.
Proof. split; reflexivity. Qed.

Lemma main_guard w fuel dtoIn :
  dtoIn <> JNull -> dtoIn <> JUndefined ->
  main w fuel dtoIn
  = if negb (ToBoolean dtoIn)
       || negb (typeof (property dtoIn "count") =? "number")%string
       || negb (ToBoolean (property dtoIn "age"))
    then Return []
    else run (for_loop w fuel fuel (property dtoIn "count") (property dtoIn "age") 0 [] []).
Proof.
  intros Hn Hu. unfold main, run.
  destruct dtoIn; try congruence; cbn [Get bind lift];
    match goal with |- context [if ?b then _ else _] => destruct b end; reflexivity.
Qed.

(** C3: for every request that is neither [null] nor [undefined], where
    [count] is not a number or [age] is absent, [main] returns the empty
    list: no exception, no record. *)
Theorem main_malformed_request_empty (w : World) (fuel : nat) (dtoIn : jsval) :
  dtoIn <> JNull -> dtoIn <> JUndefined ->
  typeof (property dtoIn "count") <> "number" \/ absent (property dtoIn "age") ->
  main w fuel dtoIn = Return [].
Proof.
  intros Hn Hu H. rewrite main_guard by assumption.
  destruct H as [H|[H|H]].
  - apply String.eqb_neq in H. rewrite H. cbn [negb orb]. now rewrite orb_true_r.
  - rewrite H. cbn [ToBoolean negb]. now rewrite orb_true_r.
  - rewrite H. cbn [ToBoolean negb]. now rewrite orb_true_r.
Qed.

Lemma negative_not_above (n : number) (i : Z) :
  0 <= i -> n = NaN \/ negative n = true -> lt_number i n = false.
Proof.
  intros Hi [->|H]; [reflexivity|].
  destruct n as [|s|m e]; cbn in *; try discriminate.
  - now rewrite H.
  - apply Z.ltb_lt in H.
    destruct (0 <=? e) eqn:E; apply Z.ltb_ge.
    + apply Z.leb_le in E. pose proof (pow2_pos e E). nia.
    + apply Z.leb_gt in E. pose proof (pow2_pos (- e) ltac:(lia)). nia.
Qed.

(** C10: for every request object whose [count] is a number that is NaN
    or negative, [main] returns the empty list, and the loop leaves at its
    first test: it returns the empty list it was given and has read
    neither [Math.random()] nor the clock. *)
Theorem main_nan_or_negative_count_empty (w : World) (fuel : nat)
    (props : list (string * jsval)) (n : number) :
  lookup props "count" = JNum n ->
  n = NaN \/ negative n = true ->
  main w fuel (JObj props) = Return []
  /\ forall tries age st, for_loop w tries fuel (JNum n) age 0 [] [] st = Return ([], st).
Proof.
  intros Hc Hn.
  assert (Hloop : forall tries age st,
             for_loop w tries fuel (JNum n) age 0 [] [] st = Return ([], st)).
  { intros tries age st. destruct fuel; cbn [for_loop less_than];
      now rewrite (negative_not_above n 0 ltac:(lia) Hn). }
  split; [|exact Hloop].
  rewrite main_guard by discriminate. cbn [property]. rewrite Hc.
  destruct (_ || _); [reflexivity|]. unfold run. now rewrite Hloop.
Qed.

(** ** The random integer *)

(** C9: for every positive integer [max] and every value of
    [Math.random()] in [[0, 1)], [randomInt(max)] returns an integer [n]
    with [0 <= n < max]. *)
Theorem randomInt_range (w : World) (max : Z) (st : state) :
  0 < max -> in_unit_interval (random w (draws st)) ->
  exists n st', randomInt w max st = Return (n, st') /\ 0 <= n < max.
Proof.
  intros Hmax Hr. eexists _, _. split; [reflexivity|].
  now apply floor_mul_range.
Qed.

(** ** The first records *)

Lemma at_least_above (n : number) (k i : Z) :
  at_least k n = true -> i < k -> lt_number i n = true.
Proof.
  intros H Hi. destruct n as [|s|m e]; cbn in *; try discriminate; [assumption|].
  destruct (0 <=? e) eqn:E.
  - apply Z.leb_le in H. apply Z.ltb_lt. lia.
  - apply Z.leb_gt in E. apply Z.leb_le in H. apply Z.ltb_lt.
    pose proof (pow2_pos (- e) ltac:(lia)). nia.
Qed.

(** The run of a valid request whose [count] is at least [k] has a record
    at every position below [k]. *)
Lemma loop_run_prefix w tries n age (k : nat) :
  at_least (Z.of_nat k) n = true ->
  forall (j : nat) used st es,
    (j <= k)%nat ->
    loop_run w tries (JNum n) age (Z.of_nat j) used st es ->
    (k - j <= List.length es)%nat.
Proof.
  intros Hk j used st es Hj Hrun.
  remember (Z.of_nat j) as i eqn:Ei. revert j Hj Ei.
  induction Hrun as [i used st Hlt|i used st e used' st' es Hlt Hit Hrun IH];
    intros j Hj ->.
  - destruct (Nat.eq_dec j k) as [->|Hne]; [simpl; lia|].
    cbn [less_than] in Hlt.
    rewrite (at_least_above n (Z.of_nat k) (Z.of_nat j) Hk ltac:(lia)) in Hlt.
    discriminate.
  - destruct (Nat.eq_dec j k) as [->|Hne]; [simpl; lia|].
    specialize (IH (S j) ltac:(lia) ltac:(lia)). simpl. lia.
Qed.

Lemma nth_error_ex {A} (l : list A) (k : nat) :
  (k < List.length l)%nat -> exists a, nth_error l k = Some a.
Proof.
  intros H. destruct (nth_error l k) as [a|] eqn:E; [now exists a|].
  apply nth_error_None in E. lia.
Qed.

(** What the run of a valid request knows of its record at position [k]:
    the loop body returned it at index [k], after [k] readings of the
    clock. *)
Lemma main_nth w fuel dtoIn n age l k e :
  valid_request dtoIn n age ->
  main w fuel dtoIn = Return l ->
  nth_error l k = Some e ->
  exists used st used' st',
    iteration w fuel age (Z.of_nat k) used st = Return ((e, used'), st')
    /\ reads st = k.
Proof.
  intros (Hc & Ha & Hage) Hmain Hk.
  apply (main_run w fuel dtoIn (JNum n) age l Hc Ha eq_refl Hage) in Hmain.
  destruct (loop_run_nth _ _ _ _ _ _ _ _ Hmain k e Hk) as (u & s & u' & s' & Hi & Hr).
  now exists u, s, u', s'.
Qed.

Lemma main_has_record w fuel dtoIn n age l (k j : nat) :
  valid_request dtoIn n age ->
  at_least (Z.of_nat k) n = true ->
  main w fuel dtoIn = Return l ->
  (j < k)%nat ->
  exists e, nth_error l j = Some e.
Proof.
  intros (Hc & Ha & Hage) Hk Hmain Hj.
  apply (main_run w fuel dtoIn (JNum n) age l Hc Ha eq_refl Hage) in Hmain.
  apply nth_error_ex.
  pose proof (loop_run_prefix w fuel n age k Hk 0 [] _ l ltac:(lia) Hmain). lia.
Qed.

(** C6: for every valid request with [count >= 2], whatever
    [Math.random()] gives, record 0 has gender ["male"] and record 1 has
    gender ["female"]. *)
Theorem first_two_genders (w : World) (fuel : nat) (dtoIn : jsval) (count : number)
    (age : jsval) (l : list Employee) :
  valid_request dtoIn count age ->
  at_least 2 count = true ->
  main w fuel dtoIn = Return l ->
  exists e0 e1,
    nth_error l 0 = Some e0 /\ nth_error l 1 = Some e1
    /\ gender e0 = JStr "male" /\ gender e1 = JStr "female".
Proof.
  intros Hv Hc Hmain.
  destruct (main_has_record w fuel dtoIn count age l 2 0 Hv Hc Hmain ltac:(lia)) as [e0 H0].
  destruct (main_has_record w fuel dtoIn count age l 2 1 Hv Hc Hmain ltac:(lia)) as [e1 H1].
  exists e0, e1. repeat split; try assumption.
  - destruct (main_nth w fuel dtoIn count age l 0 e0 Hv Hmain H0) as (u & s & u' & s' & Hi & _).
    apply iteration_Return in Hi as (s1 & _ & _ & _ & Hg & _).
    apply select_Return in Hg as [_ Hg]. now destruct Hg.
  - destruct (main_nth w fuel dtoIn count age l 1 e1 Hv Hmain H1) as (u & s & u' & s' & Hi & _).
    apply iteration_Return in Hi as (s1 & _ & _ & _ & Hg & _).
    apply select_Return in Hg as [_ Hg]. now destruct Hg.
Qed.

(** C7: for every valid request with [count >= 4], whatever
    [Math.random()] gives, records 0 to 3 have workload 10, 20, 30 and 40,
    in that order. *)
Theorem first_four_workloads (w : World) (fuel : nat) (dtoIn : jsval) (count : number)
    (age : jsval) (l : list Employee) :
  valid_request dtoIn count age ->
  at_least 4 count = true ->
  main w fuel dtoIn = Return l ->
  exists e0 e1 e2 e3,
    nth_error l 0 = Some e0 /\ nth_error l 1 = Some e1
    /\ nth_error l 2 = Some e2 /\ nth_error l 3 = Some e3
    /\ workload e0 = JNum (ofZ 10) /\ workload e1 = JNum (ofZ 20)
    /\ workload e2 = JNum (ofZ 30) /\ workload e3 = JNum (ofZ 40).
Proof.
  intros Hv Hc Hmain.
  assert (Hw : forall k e, (k < 4)%nat -> nth_error l k = Some e ->
                           workload e = at_index workloads (Z.of_nat k)).
  { intros k e Hk He.
    destruct (main_nth w fuel dtoIn count age l k e Hv Hmain He) as (u & s & u' & s' & Hi & _).
    apply iteration_Return in Hi as (s1 & s2 & _ & _ & _ & Hw & _).
    apply select_Return in Hw as [_ Hw].
    replace (Z.of_nat k <? len workloads) with true in Hw
      by (symmetry; apply Z.ltb_lt; cbn; lia).
    now destruct Hw. }
  destruct (main_has_record w fuel dtoIn count age l 4 0 Hv Hc Hmain ltac:(lia)) as [e0 H0].
  destruct (main_has_record w fuel dtoIn count age l 4 1 Hv Hc Hmain ltac:(lia)) as [e1 H1].
  destruct (main_has_record w fuel dtoIn count age l 4 2 Hv Hc Hmain ltac:(lia)) as [e2 H2].
  destruct (main_has_record w fuel dtoIn count age l 4 3 Hv Hc Hmain ltac:(lia)) as [e3 H3].
  exists e0, e1, e2, e3. repeat split; try assumption.
  - rewrite (Hw 0%nat e0) by (lia || assumption). reflexivity.
  - rewrite (Hw 1%nat e1) by (lia || assumption). reflexivity.
  - rewrite (Hw 2%nat e2) by (lia || assumption). reflexivity.
  - rewrite (Hw 3%nat e3) by (lia || assumption). reflexivity.
Qed.

(** C8: for every index [i < 16], the record at index [i] has the [i]-th
    name of the name list of its gender and the [i]-th surname of the
    surname list of the same gender; at index 0 these are "Jan" and
    "Novák" for a male, "Lucie" and "Nováková" for a female. *)
Theorem names_by_index (w : World) (fuel : nat) (dtoIn : jsval) (count : number)
    (age : jsval) (l : list Employee) (i : nat) (e : Employee) :
  valid_request dtoIn count age ->
  main w fuel dtoIn = Return l ->
  (i < 16)%nat ->
  nth_error l i = Some e ->
  (name e = at_index (names_of (gender e)) (Z.of_nat i)
   /\ surname e = at_index (surnames_of (gender e)) (Z.of_nat i))
  /\ (forall st, getName w 0 (JStr "male") st = Return (JStr "Jan", st)
                 /\ getSurname w 0 (JStr "male") st = Return (JStr "Novák", st)
                 /\ getName w 0 (JStr "female") st = Return (JStr "Lucie", st)
                 /\ getSurname w 0 (JStr "female") st = Return (JStr "Nováková", st)).
Proof.
  intros Hv Hmain Hi He. split; [|intros st; repeat split; reflexivity].
  destruct (main_nth w fuel dtoIn count age l i e Hv Hmain He) as (u & s & u' & s' & Hit & _).
  apply iteration_Return in Hit as (s1 & s2 & s3 & s4 & _ & _ & Hn & Hs & _).
  unfold getName in Hn. unfold getSurname in Hs. fold (names_of (gender e)) in Hn.
  fold (surnames_of (gender e)) in Hs.
  apply select_Return in Hn as [_ Hn]. apply select_Return in Hs as [_ Hs].
  assert (Hln : len (names_of (gender e)) = 16)
    by (unfold names_of; destruct (strict_eq_string _ _); reflexivity).
  assert (Hls : len (surnames_of (gender e)) = 16)
    by (unfold surnames_of; destruct (strict_eq_string _ _); reflexivity).
  rewrite Hln in Hn. rewrite Hls in Hs.
  replace (Z.of_nat i <? 16) with true in * by (symmetry; apply Z.ltb_lt; lia).
  destruct Hn as [Hn _]. destruct Hs as [Hs _]. now split.
Qed.

(** ** The birthdates *)

(** C5: the birthdates that one call of [main] returns are pairwise
    distinct.  They are the strings of timestamps (in milliseconds) that
    are pairwise distinct themselves: each was drawn until the set
    [usedBirthdates] of the call did not hold it, and was then added. *)
Theorem birthdates_distinct (w : World) (fuel : nat) (dtoIn : jsval)
    (l : list Employee) :
  main w fuel dtoIn = Return l ->
  NoDup (map birthdate l)
  /\ exists tss, map birthdate l = map isoString tss
                 /\ Forall valid_time tss /\ NoDup tss.
Proof.
  intros Hmain.
  destruct (Bool.bool_dec (negb (ToBoolean dtoIn)
              || negb (typeof (property dtoIn "count") =? "number")%string
              || negb (ToBoolean (property dtoIn "age"))) true) as [Hg|Hg].
  - assert (l = []) as ->.
    { destruct dtoIn; try discriminate; rewrite main_guard in Hmain by discriminate;
        rewrite Hg in Hmain; now injection Hmain. }
    split; [constructor|]. exists []. repeat split; constructor.
  - apply not_true_is_false in Hg.
    apply orb_false_elim in Hg as [Hg Hage]. apply orb_false_elim in Hg as [Hd Hc].
    apply negb_false_iff in Hage, Hd, Hc.
    assert (Hrun : loop_run w fuel (property dtoIn "count") (property dtoIn "age") 0 []
                     {| draws := 0; reads := 0 |} l).
    { apply (main_run w fuel dtoIn); try assumption;
        destruct dtoIn; try discriminate; reflexivity. }
    apply loop_run_fresh in Hrun as (tss & Hmap & Hvalid & Hnd & _).
    split; [|now exists tss].
    rewrite Hmap. now apply NoDup_map_isoString.
Qed.

(** The timestamp drawn in a window that is not empty lies in the window:
    the lower bound is included, the upper bound is not. *)
Lemma window_draw (r : unit_double) (minTime maxTime : Z) :
  in_unit_interval r -> valid_time minTime -> valid_time maxTime ->
  minTime < maxTime ->
  minTime <= fl (minTime + floor_mul r (fl (maxTime - minTime))) < maxTime.
Proof.
  unfold valid_time, timeLimit.
  intros Hr Hmin Hmax Hlt.
  assert (Hp : 2 ^ 53 = 9007199254740992) by reflexivity.
  assert (Hq : 2 ^ 54 = 18014398509481984) by reflexivity.
  assert (Hf : 0 <= floor_mul r (fl (maxTime - minTime)) < maxTime - minTime).
  { destruct (Z.le_gt_cases (maxTime - minTime) (2 ^ 53)) as [Hs|Hs].
    - rewrite fl_exact by lia. apply floor_mul_range; [assumption|lia].
    - apply floor_mul_fl_wide; [assumption|lia]. }
  rewrite fl_exact by lia. lia.
Qed.

(** C4, amended: for every valid request whose [age.min] and [age.max]
    are integers with [age.min < age.max], in a world where
    [Math.random()] is in [[0, 1)], each returned record's birthdate is the
    string of a timestamp [ts] with [minTime <= ts < maxTime], where
    [minTime] is the instant of the record's reading of the clock less
    [age.max] years and [maxTime] that instant less [age.min] years. *)
Theorem birthdate_in_window (w : World) (fuel : nat) (dtoIn : jsval) (count : number)
    (age : jsval) (age_min age_max : Z) (l : list Employee) (i : nat) (e : Employee) :
  WorldOk w ->
  valid_request dtoIn count age ->
  Get age "min" = Return (JNum (ofZ age_min)) ->
  Get age "max" = Return (JNum (ofZ age_max)) ->
  age_min < age_max ->
  main w fuel dtoIn = Return l ->
  nth_error l i = Some e ->
  in_birth_window w (JNum (ofZ age_min)) (JNum (ofZ age_max)) i e.
Proof.
  intros Hw Hv Hmin Hmax Hlt Hmain He.
  destruct (main_nth w fuel dtoIn count age l i e Hv Hmain He) as (u & s & u' & s' & Hit & Hr).
  apply iteration_Return in Hit as (s1 & s2 & s3 & s4 & Hg & Hwl & Hn & Hs & Hb).
  apply select_Return in Hg as [Hg _]. apply select_Return in Hwl as [Hwl _].
  apply select_Return in Hn as [Hn _]. apply select_Return in Hs as [Hs _].
  apply generateUniqueBirthdate_Return in Hb
    as (vmax & vmin & minTime & maxTime & k & ts
        & Hgmax & Hgmin & Hymin & Hymax & _ & Hts & Hvalid & _ & _ & Hiso & _).
  rewrite Hmax in Hgmax. rewrite Hmin in Hgmin.
  apply Return_inj in Hgmax, Hgmin. subst vmax vmin.
  replace (reads s4) with i in * by congruence.
  destruct minTime as [mn|]; [|discriminate].
  destruct maxTime as [mx|]; [|discriminate].
  cbn [plus floor_times minus option_map] in Hts. apply Some_inj in Hts.
  exists ts, mn, mx. repeat split; try assumption.
  - pose proof (yearsBefore_lt w _ _ _ _ _ Hw Hlt Hymax Hymin) as Hwin.
    destruct (yearsBefore_integer w _ _ _ Hw Hymin) as (_ & Vmn & _).
    destruct (yearsBefore_integer w _ _ _ Hw Hymax) as (_ & Vmx & _).
    rewrite <- Hts. apply window_draw; try assumption. apply Hw.
  - pose proof (yearsBefore_lt w _ _ _ _ _ Hw Hlt Hymax Hymin) as Hwin.
    destruct (yearsBefore_integer w _ _ _ Hw Hymin) as (_ & Vmn & _).
    destruct (yearsBefore_integer w _ _ _ Hw Hymax) as (_ & Vmx & _).
    rewrite <- Hts. apply window_draw; try assumption. apply Hw.
Qed.

(** ** The number of records *)

Lemma lt_number_ofZ (i c : Z) : lt_number i (ofZ c) = (i <? c).
Proof. cbn. now rewrite Z.mul_1_r. Qed.

Lemma loop_run_length w tries (c : Z) age i used st es :
  loop_run w tries (JNum (ofZ c)) age i used st es ->
  i <= c -> Z.of_nat (List.length es) = c - i.
Proof.
  induction 1 as [i used st Hlt|i used st e used' st' es Hlt Hit Hrun IH]; intros Hi;
    cbn [less_than] in Hlt; rewrite lt_number_ofZ in Hlt.
  - apply Z.ltb_ge in Hlt. simpl. lia.
  - apply Z.ltb_lt in Hlt. cbn [List.length]. rewrite Nat2Z.inj_succ, IH; lia.
Qed.

(** A selector always returns: with the entry of its index below the
    length of its list, with a drawn entry from there on. *)
Lemma select_total w (list : list jsval) (i : nat) st :
  exists v st',
    (if Z.of_nat i <? len list then ret (at_index list (Z.of_nat i))
     else k <- randomInt w (len list) ;; ret (at_index list k)) st = Return (v, st')
    /\ reads st' = reads st
    /\ draws st' = (draws st + if List.length list <=? i then 1 else 0)%nat.
Proof.
  unfold len. destruct (Z.ltb_spec (Z.of_nat i) (Z.of_nat (List.length list))) as [H|H].
  - eexists _, st. split; [reflexivity|]. split; [reflexivity|].
    destruct (Nat.leb_spec (List.length list) i); lia.
  - eexists _, _. split; [reflexivity|]. split; [reflexivity|]. cbn [draws].
    destruct (Nat.leb_spec (List.length list) i); lia.
Qed.

Lemma first_timestamp_Some w age i ts :
  first_timestamp w age i = Some ts ->
  exists age_max age_min minTime maxTime,
    Get age "max" = Return age_max /\ Get age "min" = Return age_min
    /\ yearsBefore w (Some (clock w i)) age_max = Return minTime
    /\ yearsBefore w (Some (clock w i)) age_min = Return maxTime
    /\ plus minTime (floor_times (random w (draws_before i + selector_draws i))
                       (minus maxTime minTime)) = Some ts
    /\ valid_time ts.
Proof.
  unfold first_timestamp. intros H.
  destruct (Get age "max") as [age_max| |] eqn:E1; try discriminate.
  destruct (Get age "min") as [age_min| |] eqn:E2; try discriminate.
  destruct (yearsBefore w _ age_max) as [minTime| |] eqn:E3; try discriminate.
  destruct (yearsBefore w _ age_min) as [maxTime| |] eqn:E4; try discriminate.
  apply TimeClip_Some in H as [H Hv].
  exists age_max, age_min, minTime, maxTime. repeat split; assumption.
Qed.

Lemma bind_eq {A B} (c : M A) (k : A -> M B) st a st1 :
  c st = Return (a, st1) -> bind c k st = k a st1.
Proof. unfold bind. now intros ->. Qed.

Lemma lift_eq {A} (o : outcome A) (a : A) st : o = Return a -> lift o st = Return (a, st).
Proof. now intros ->. Qed.

(** The loop body, when the first timestamp it draws is valid and new:
    it returns without a second draw. *)
Lemma iteration_no_retry w tries age (i : nat) used st ts :
  draws st = draws_before i -> reads st = i ->
  first_timestamp w age i = Some ts ->
  Set_has used (Some ts) = false ->
  exists e st',
    iteration w (S tries) age (Z.of_nat i) used st = Return ((e, used ++ [Some ts]), st')
    /\ draws st' = draws_before (S i) /\ reads st' = S i.
Proof.
  intros Hd Hr Hts Hnew.
  apply first_timestamp_Some in Hts
    as (age_max & age_min & minTime & maxTime & Hmax & Hmin & Hymin & Hymax & Hts & Hvalid).
  unfold iteration.
  destruct (select_total w genders i st) as (g & st1 & Hg & Hr1 & Hd1).
  destruct (select_total w workloads i st1) as (wl & st2 & Hwl & Hr2 & Hd2).
  destruct (select_total w (names_of g) i st2) as (nm & st3 & Hn & Hr3 & Hd3).
  destruct (select_total w (surnames_of g) i st3) as (sn & st4 & Hs & Hr4 & Hd4).
  assert (Hln : List.length (names_of g) = 16%nat)
    by (unfold names_of; destruct (strict_eq_string _ _); reflexivity).
  assert (Hls : List.length (surnames_of g) = 16%nat)
    by (unfold surnames_of; destruct (strict_eq_string _ _); reflexivity).
  rewrite Hln in Hd3. rewrite Hls in Hd4.
  change (List.length genders) with 2%nat in Hd1.
  change (List.length workloads) with 4%nat in Hd2.
  assert (Hd4' : draws st4 = (draws_before i + selector_draws i)%nat).
  { unfold selector_draws. rewrite Hd4, Hd3, Hd2, Hd1, Hd.
    destruct (2 <=? i)%nat, (4 <=? i)%nat, (16 <=? i)%nat; lia. }
  assert (Hr4' : reads st4 = i) by congruence.
  exists {| gender := g; birthdate := isoString ts; name := nm; surname := sn;
            workload := wl |},
         {| draws := S (draws st4); reads := S (reads st4) |}.
  split; [|cbn [draws reads draws_before]; lia].
  assert (Hb : generateUniqueBirthdate w (S tries) age used st4
               = Return ((isoString ts, used ++ [Some ts]),
                         {| draws := S (draws st4); reads := S (reads st4) |})).
  { unfold generateUniqueBirthdate.
    rewrite (bind_eq (new_Date w) _ st4 (Some (clock w (reads st4)))
               {| draws := draws st4; reads := S (reads st4) |} eq_refl).
    rewrite (bind_eq _ _ _ _ _ (lift_eq _ _ _ Hmax)).
    rewrite Hr4'. rewrite (bind_eq _ _ _ _ _ (lift_eq _ _ _ Hymin)).
    rewrite (bind_eq _ _ _ _ _ (lift_eq _ _ _ Hmin)).
    rewrite (bind_eq _ _ _ _ _ (lift_eq _ _ _ Hymax)).
    assert (Hloop : do_while w (S tries) minTime (minus maxTime minTime) used
                      {| draws := draws st4; reads := S i |}
                    = Return (Some ts, {| draws := S (draws st4); reads := S i |})).
    { cbn [do_while].
      rewrite (bind_eq (Math_random w) _ {| draws := draws st4; reads := S i |}
                 (random w (draws st4))
                 {| draws := S (draws st4); reads := S i |} eq_refl).
      rewrite Hd4', Hts, Hnew. reflexivity. }
    rewrite (bind_eq _ _ _ _ _ Hloop).
    unfold Set_add. rewrite Hnew. unfold new_Date_of.
    rewrite (TimeClip_valid ts Hvalid). cbn [toISOString].
    rewrite (bind_eq _ _ _ _ _ (lift_eq _ _ _ eq_refl)). reflexivity. }
  rewrite (bind_eq _ _ _ _ _ Hg). rewrite (bind_eq _ _ _ _ _ Hwl).
  rewrite (bind_eq _ _ _ _ _ Hn). rewrite (bind_eq _ _ _ _ _ Hs).
  rewrite (bind_eq _ _ _ _ _ Hb). reflexivity.
Qed.

Lemma first_timestamps_succ w age (i : nat) :
  first_timestamps w age (S i) = first_timestamps w age i ++ [first_timestamp w age i].
Proof. unfold first_timestamps. now rewrite seq_S, map_app. Qed.

Lemma nth_first_timestamps w age (count j : nat) :
  (j < count)%nat ->
  nth j (first_timestamps w age count) None = first_timestamp w age j.
Proof.
  intros Hj. unfold first_timestamps.
  rewrite (nth_indep _ None (first_timestamp w age 0))
    by (rewrite length_map, length_seq; exact Hj).
  rewrite map_nth, seq_nth by exact Hj. reflexivity.
Qed.

Lemma first_timestamps_new w age (count i : nat) :
  NoDup (first_timestamps w age count) -> (i < count)%nat ->
  ~ In (first_timestamp w age i) (first_timestamps w age i).
Proof.
  intros Hnd Hi Hin.
  apply in_map_iff in Hin as (j & Hj & Hin). apply in_seq in Hin.
  pose proof (proj1 (NoDup_nth _ None) Hnd j i) as Hn.
  unfold first_timestamps in Hn at 1 2. rewrite length_map, length_seq in Hn.
  rewrite !nth_first_timestamps in Hn by lia.
  specialize (Hn ltac:(lia) Hi Hj). lia.
Qed.

(** The loop from index [i] on, when the array has room for [count]
    records and the first timestamp drawn for each of the records to come
    is valid and new: it runs to the end. *)
Lemma for_loop_no_retry w age (count : nat) :
  Z.of_nat count <= maxArrayLength ->
  NoDup (first_timestamps w age count) ->
  ~ In None (first_timestamps w age count) ->
  forall (k i tries fuel : nat) dtoOut st,
    (i + k = count)%nat -> (k <= fuel)%nat -> List.length dtoOut = i ->
    draws st = draws_before i -> reads st = i ->
    exists l st',
      for_loop w (S tries) fuel (JNum (ofZ (Z.of_nat count))) age (Z.of_nat i) dtoOut
        (first_timestamps w age i) st = Return (l, st').
Proof.
  intros Hroom Hnd Hsome.
  induction k as [|k IH]; intros i tries fuel dtoOut st Hik Hfuel Hlen Hd Hr.
  - exists dtoOut, st.
    assert (Hlt : less_than (Z.of_nat i) (JNum (ofZ (Z.of_nat count))) = false).
    { cbn [less_than]. rewrite lt_number_ofZ. apply Z.ltb_ge. lia. }
    destruct fuel; cbn [for_loop]; now rewrite Hlt.
  - destruct fuel as [|fuel]; [lia|]. cbn [for_loop].
    assert (Hlt : less_than (Z.of_nat i) (JNum (ofZ (Z.of_nat count))) = true).
    { cbn [less_than]. rewrite lt_number_ofZ. apply Z.ltb_lt. lia. }
    rewrite Hlt.
    destruct (first_timestamp w age i) as [ts|] eqn:Ets.
    2: { exfalso. apply Hsome. unfold first_timestamps. apply in_map_iff.
         exists i. split; [assumption|]. apply in_seq. lia. }
    assert (Hnew : Set_has (first_timestamps w age i) (Some ts) = false).
    { apply not_true_is_false. rewrite Set_has_In, <- Ets.
      apply (first_timestamps_new w age count); [assumption|lia]. }
    destruct (iteration_no_retry w tries age i _ st ts Hd Hr Ets Hnew)
      as (e & st1 & Hit & Hd1 & Hr1).
    rewrite (bind_eq _ _ _ _ _ Hit). cbn [fst snd].
    rewrite (bind_eq _ _ _ _ _ (lift_eq _ _ _ (push_eq dtoOut e ltac:(lia)))).
    rewrite <- Ets, <- first_timestamps_succ.
    rewrite counter_succ by lia.
    replace (Z.of_nat i + 1) with (Z.of_nat (S i)) by lia.
    apply IH; try assumption; try lia.
    rewrite length_app. cbn [List.length]. lia.
Qed.

(** C2, amended: for every request whose [count] is a non-negative
    integer and whose [age] is present, a call of [main] that returns
    returns exactly [count] records, the record at position [i] being the
    one the loop body made at index [i]; and the call does return (given
    fuel for [count] iterations) when [count] is at most [2 ^ 32 - 1], the
    greatest length of an array, and the first timestamp drawn for each
    record is a valid date that no earlier record has. *)
Theorem main_returns_count_records (w : World) (dtoIn : jsval) (count : nat)
    (age : jsval) :
  valid_request dtoIn (ofZ (Z.of_nat count)) age ->
  (forall fuel l,
      main w fuel dtoIn = Return l ->
      List.length l = count
      /\ forall i e, nth_error l i = Some e -> produced_at w age i e)
  /\ (Z.of_nat count <= maxArrayLength ->
      NoDup (first_timestamps w age count) ->
      ~ In None (first_timestamps w age count) ->
      forall fuel, (count <= fuel)%nat -> exists l, main w fuel dtoIn = Return l).
Proof.
  intros Hv. split.
  - intros fuel l Hmain. split.
    + destruct Hv as (Hc & Ha & Hage).
      apply (main_run w fuel dtoIn _ age l Hc Ha eq_refl Hage) in Hmain.
      apply loop_run_length in Hmain; lia.
    + intros i e He.
      destruct (main_nth w fuel dtoIn _ age l i e Hv Hmain He) as (u & s & u' & s' & Hit & _).
      now exists fuel, u, s, u', s'.
  - intros Hroom Hnd Hsome fuel Hfuel.
    destruct Hv as (Hc & Ha & Hage).
    rewrite main_guard by (destruct dtoIn; discriminate).
    assert (Hpc : property dtoIn "count" = JNum (ofZ (Z.of_nat count)))
      by (destruct dtoIn; try discriminate; now injection Hc).
    assert (Hpa : property dtoIn "age" = age)
      by (destruct dtoIn; try discriminate; now injection Ha).
    assert (Hd : ToBoolean dtoIn = true)
      by (destruct dtoIn; try discriminate; reflexivity).
    rewrite Hpc, Hpa, Hd, Hage. cbn [typeof negb orb String.eqb].
    destruct count as [|count].
    + exists []. destruct fuel; reflexivity.
    + destruct fuel as [|fuel]; [lia|].
      destruct (for_loop_no_retry w age (S count) Hroom Hnd Hsome (S count) 0 fuel
                  (S fuel) [] {| draws := 0; reads := 0 |} ltac:(lia) ltac:(lia)
                  eq_refl eq_refl eq_refl)
        as (l & st' & Hl).
      exists l. unfold run. change (first_timestamps w age 0) with (@nil timevalue) in Hl.
      change (Z.of_nat 0) with 0 in Hl. now rewrite Hl.
Qed.

Lemma distinct_NoDup (l : NumberSet) : distinct l = true -> NoDup l.
Proof.
  induction l as [|x l IH]; intros H; [constructor|].
  cbn [distinct] in H. apply andb_prop in H as [Hx Hl].
  constructor; [|now apply IH].
  rewrite <- Set_has_In. now destruct (Set_has l x).
Qed.

Lemma main_records20 : main world0 20 (request (ofZ 20) 20 30) = Return records20.
Proof. vm_compute. reflexivity. Qed.

Lemma valid_request_20 : valid_request (request (ofZ 20) 20 30) (ofZ 20) age_20_30.
Proof. repeat split. Qed.

Lemma world0_ok : WorldOk world0.
Proof.
  split.
  - intros n. split; [|cbn; lia]. cbn [world0 random significand].
    apply Z.mod_pos_bound. reflexivity.
  - intros t isUTC. cbn. lia.
Qed.

(** ** The witnesses and the counterexamples *)

Lemma main_malformed_request_empty_witness :
  main world0 5 (JObj [("count", JStr "3"); ("age", age_20_30)]) = Return []
  /\ main world0 5 (JObj [("count", JNum (ofZ 3))]) = Return [].
Proof.
  split.
  - apply main_malformed_request_empty; [discriminate|discriminate|].
    left. discriminate.
  - apply main_malformed_request_empty; [discriminate|discriminate|].
    right. left. reflexivity.
Defined.

Lemma main_nan_or_negative_count_empty_witness :
  main world0 5 (request (ofZ (-2)) 20 30) = Return []
  /\ main world0 5 (request NaN 20 30) = Return [].
Proof.
  split.
  - apply (main_nan_or_negative_count_empty world0 5 _ (ofZ (-2)));
      [reflexivity|right; reflexivity].
  - apply (main_nan_or_negative_count_empty world0 5 _ NaN);
      [reflexivity|left; reflexivity].
Defined.

Lemma randomInt_range_witness :
  exists n st', randomInt world0 16 {| draws := 7; reads := 0 |} = Return (n, st')
                /\ 0 <= n < 16.
Proof.
  apply randomInt_range; [reflexivity|apply world0_ok].
Defined.

Lemma first_two_genders_witness :
  exists e0 e1,
    nth_error records20 0 = Some e0 /\ nth_error records20 1 = Some e1
    /\ gender e0 = JStr "male" /\ gender e1 = JStr "female".
Proof.
  apply (first_two_genders world0 20 (request (ofZ 20) 20 30) (ofZ 20) age_20_30).
  - exact valid_request_20.
  - reflexivity.
  - exact main_records20.
Defined.

Lemma first_four_workloads_witness :
  exists e0 e1 e2 e3,
    nth_error records20 0 = Some e0 /\ nth_error records20 1 = Some e1
    /\ nth_error records20 2 = Some e2 /\ nth_error records20 3 = Some e3
    /\ workload e0 = JNum (ofZ 10) /\ workload e1 = JNum (ofZ 20)
    /\ workload e2 = JNum (ofZ 30) /\ workload e3 = JNum (ofZ 40).
Proof.
  apply (first_four_workloads world0 20 (request (ofZ 20) 20 30) (ofZ 20) age_20_30).
  - exact valid_request_20.
  - reflexivity.
  - exact main_records20.
Defined.

Lemma names_by_index_witness :
  (name record5 = at_index (names_of (gender record5)) (Z.of_nat 5)
   /\ surname record5 = at_index (surnames_of (gender record5)) (Z.of_nat 5))
  /\ (forall st, getName world0 0 (JStr "male") st = Return (JStr "Jan", st)
                 /\ getSurname world0 0 (JStr "male") st = Return (JStr "Novák", st)
                 /\ getName world0 0 (JStr "female") st = Return (JStr "Lucie", st)
                 /\ getSurname world0 0 (JStr "female") st = Return (JStr "Nováková", st)).
Proof.
  apply (names_by_index world0 20 (request (ofZ 20) 20 30) (ofZ 20) age_20_30 records20).
  - exact valid_request_20.
  - exact main_records20.
  - lia.
  - reflexivity.
Defined.

Lemma birthdates_distinct_witness :
  NoDup (map birthdate records20)
  /\ exists tss, map birthdate records20 = map isoString tss
                 /\ Forall valid_time tss /\ NoDup tss.
Proof.
  apply (birthdates_distinct world0 20 (request (ofZ 20) 20 30)).
  exact main_records20.
Defined.

Lemma birthdate_in_window_witness :
  nth_error records20 2 = Some record2
  /\ in_birth_window world0 (JNum (ofZ 20)) (JNum (ofZ 30)) 2 record2.
Proof.
  split; [reflexivity|].
  apply (birthdate_in_window world0 20 (request (ofZ 20) 20 30) (ofZ 20) age_20_30 20 30
           records20).
  - exact world0_ok.
  - exact valid_request_20.
  - reflexivity.
  - reflexivity.
  - lia.
  - exact main_records20.
  - reflexivity.
Defined.

Lemma main_returns_count_records_witness :
  List.length records20 = 20%nat
  /\ exists l, main world0 20 (request (ofZ 20) 20 30) = Return l.
Proof.
  destruct (main_returns_count_records world0 (request (ofZ 20) 20 30) 20 age_20_30
              valid_request_20) as [Hpartial Htotal].
  split.
  - apply (Hpartial 20%nat records20). exact main_records20.
  - apply Htotal.
    + vm_compute. discriminate.
    + apply distinct_NoDup. vm_compute. reflexivity.
    + rewrite <- Set_has_In. vm_compute. discriminate.
    + lia.
Defined.

(** With [age.min = age.max] the window is empty: the only timestamp drawn
    is [minTime], which is [maxTime]. *)
Lemma do_while_stuck w tries (t : Z) used st :
  valid_time t -> In (Some t) used ->
  do_while w tries (Some t) (Some 0) used st = OutOfFuel.
Proof.
  intros Hv Hin. revert st. induction tries as [|tries IH]; intros st; [reflexivity|].
  cbn [do_while].
  rewrite (bind_eq (Math_random w) _ st (random w (draws st))
             {| draws := S (draws st); reads := reads st |} eq_refl).
  cbn [floor_times option_map plus]. rewrite floor_mul_zero, Z.add_0_r.
  rewrite fl_exact
    by (unfold valid_time, timeLimit in Hv; change (2 ^ 53) with 9007199254740992; lia).
  apply Set_has_In in Hin. rewrite Hin. apply IH.
Qed.

Lemma bind_OutOfFuel {A B} (c : M A) (k : A -> M B) st :
  c st = OutOfFuel -> bind c k st = OutOfFuel.
Proof. unfold bind. now intros ->. Qed.

Lemma generateUniqueBirthdate_stuck tries used st :
  In (Some 846918000123) used ->
  generateUniqueBirthdate world1 tries age_30_30 used st = OutOfFuel.
Proof.
  intros Hin. unfold generateUniqueBirthdate.
  rewrite (bind_eq (new_Date world1) _ st (Some 1793602800123)
             {| draws := draws st; reads := S (reads st) |} eq_refl).
  assert (Hy : yearsBefore world1 (Some 1793602800123) (JNum (ofZ 30))
               = Return (Some 846918000123)) by (vm_compute; reflexivity).
  rewrite (bind_eq _ _ _ _ _ (lift_eq (Get age_30_30 "max") _ _ eq_refl)).
  rewrite (bind_eq _ _ _ _ _ (lift_eq _ _ _ Hy)).
  rewrite (bind_eq _ _ _ _ _ (lift_eq (Get age_30_30 "min") _ _ eq_refl)).
  rewrite (bind_eq _ _ _ _ _ (lift_eq _ _ _ Hy)).
  apply bind_OutOfFuel.
  change (minus (Some 846918000123) (Some 846918000123)) with (Some 0).
  apply do_while_stuck; [|assumption].
  unfold valid_time, timeLimit. lia.
Qed.

Lemma main_stuck (fuel : nat) : main world1 fuel (request (ofZ 2) 30 30) = OutOfFuel.
Proof.
  rewrite main_guard by discriminate.
  change (property (request (ofZ 2) 30 30) "count") with (JNum (ofZ 2)).
  change (property (request (ofZ 2) 30 30) "age") with age_30_30.
  cbn [ToBoolean request typeof negb orb String.eqb].
  destruct fuel as [|fuel]; [reflexivity|].
  unfold run. cbn [for_loop].
  change (less_than 0 (JNum (ofZ 2))) with true. cbv iota.
  destruct (iteration_no_retry world1 fuel age_30_30 0 [] {| draws := 0; reads := 0 |}
              846918000123 eq_refl eq_refl ltac:(vm_compute; reflexivity) eq_refl)
    as (e & st1 & Hit & Hd & Hr).
  change (Z.of_nat 0) with 0 in Hit.
  rewrite (bind_eq _ _ _ _ _ Hit). cbn [fst snd].
  rewrite (bind_eq _ _ _ _ _ (lift_eq (push [] e) [e] st1 eq_refl)).
  change (fl (0 + 1)) with 1.
  destruct fuel as [|fuel]; [reflexivity|].
  cbn [for_loop]. change (less_than 1 (JNum (ofZ 2))) with true. cbv iota.
  rewrite bind_OutOfFuel; [reflexivity|].
  unfold iteration.
  destruct (select_total world1 genders 1 st1) as (g & s1 & Hg & _).
  destruct (select_total world1 workloads 1 s1) as (wl & s2 & Hwl & _).
  destruct (select_total world1 (names_of g) 1 s2) as (nm & s3 & Hn & _).
  destruct (select_total world1 (surnames_of g) 1 s3) as (sn & s4 & Hs & _).
  change (Z.of_nat 1) with 1 in *.
  rewrite (bind_eq _ _ _ _ _ Hg). rewrite (bind_eq _ _ _ _ _ Hwl).
  rewrite (bind_eq _ _ _ _ _ Hn). rewrite (bind_eq _ _ _ _ _ Hs).
  apply bind_OutOfFuel. apply generateUniqueBirthdate_stuck. now left.
Qed.

(** Against C2 as stated, which fails in three ways: a negative [count] gives no record,
    an [age] without years gives a RangeError, and with
    [age.min = age.max] and a clock that stands still the second record
    is never found. *)
Lemma count_claim_counterexample :
  (valid_request (request (ofZ (-1)) 20 30) (ofZ (-1)) age_20_30
   /\ main world0 1 (request (ofZ (-1)) 20 30) = Return []
   /\ Z.of_nat (List.length (@nil Employee)) <> -1)
  /\ (valid_request (JObj [("count", JNum (ofZ 1)); ("age", JObj [])]) (ofZ 1) (JObj [])
      /\ main world0 1 (JObj [("count", JNum (ofZ 1)); ("age", JObj [])])
         = Throw RangeError)
  /\ (valid_request (request (ofZ 2) 30 30) (ofZ 2) age_30_30
      /\ forall fuel, main world1 fuel (request (ofZ 2) 30 30) = OutOfFuel).
Proof.
  split; [|split].
  - split; [repeat split|]. split; [reflexivity|discriminate].
  - split; [repeat split|]. vm_compute. reflexivity.
  - split; [repeat split|]. exact main_stuck.
Qed.

(** Against C4 as stated, which fails for [age.min = age.max]: the record's timestamp is
    [minTime], which is [maxTime], and so not below [maxTime].  It fails in
    the same way for ages that are not integers and fall in one year, as
    30.25 and 30.5 do: [setFullYear] drops the fraction of the year. *)
Lemma window_claim_counterexample :
  (valid_request (request (ofZ 1) 30 30) (ofZ 1) age_30_30
   /\ 30 <= 30
   /\ main world0 1 (request (ofZ 1) 30 30) = Return [first_record]
   /\ ~ in_birth_window world0 (JNum (ofZ 30)) (JNum (ofZ 30)) 0 first_record)
  /\ (valid_request
        (JObj [("count", JNum (ofZ 1)); ("age", age_quarter_half)]) (ofZ 1) age_quarter_half
      /\ main world0 1 (JObj [("count", JNum (ofZ 1)); ("age", age_quarter_half)])
         = Return [first_record_born "1995-11-02T07:00:00.123Z"]
      /\ ~ in_birth_window world0 (JNum (Finite 121 (-2))) (JNum (Finite 61 (-1))) 0
            (first_record_born "1995-11-02T07:00:00.123Z")).
Proof.
  assert (Hy : yearsBefore world0 (Some (clock world0 0)) (JNum (ofZ 30))
               = Return (Some 846918000123)) by (vm_compute; reflexivity).
  assert (Hq : yearsBefore world0 (Some (clock world0 0)) (JNum (Finite 121 (-2)))
               = Return (Some 815295600123)) by (vm_compute; reflexivity).
  assert (Hh : yearsBefore world0 (Some (clock world0 0)) (JNum (Finite 61 (-1)))
               = Return (Some 815295600123)) by (vm_compute; reflexivity).
  split.
  - split; [repeat split|]. split; [lia|]. split; [vm_compute; reflexivity|].
    intros (ts & minTime & maxTime & _ & Hmin & Hmax & Hts).
    rewrite Hy in Hmin, Hmax. apply Return_inj in Hmin, Hmax.
    apply Some_inj in Hmin, Hmax. lia.
  - split; [repeat split|]. split; [vm_compute; reflexivity|].
    intros (ts & minTime & maxTime & _ & Hmin & Hmax & Hts).
    rewrite Hh in Hmin. rewrite Hq in Hmax. apply Return_inj in Hmin, Hmax.
    apply Some_inj in Hmin, Hmax. lia.
Qed.

(* ===================================================================== *)
(** * 10. Further properties of the code *)
(* ===================================================================== *)

(** ** What a run issues *)

Lemma yearsBefore_valid w now v t :
  yearsBefore w now v = Return (Some t) -> valid_time t.
Proof.
  unfold yearsBefore. destruct (ToNumber w v) as [n| |]; try discriminate.
  intros H. apply Return_inj in H. unfold getTime, setFullYear in H.
  destruct (MakeDate _ _) as [u|]; [|discriminate].
  now apply TimeClip_Some in H.
Qed.

(** The timestamps of the records of a run: valid, pairwise distinct, not
    in the set the run started with, and each drawn at the reading of the
    clock of its record. *)
Lemma loop_run_issued w tries count age i used st es :
  loop_run w tries count age i used st es ->
  exists tss,
    map birthdate es = map isoString tss
    /\ Forall valid_time tss
    /\ NoDup tss
    /\ (forall t, In t tss -> ~ In (Some t) used)
    /\ forall j ts, nth_error tss j = Some ts ->
                    exists k, issued w age (reads st + j) k ts.
Proof.
  induction 1 as [|i used st e used' st' es Hlt Hit Hrun IH].
  - exists []. repeat split; auto using NoDup_nil.
    intros j ts Hj. destruct j; discriminate.
  - destruct IH as (tss & Hmap & Hvalid & Hnd & Hnew & Hiss).
    pose proof (iteration_reads _ _ _ _ _ _ _ _ _ Hit) as Hreads.
    apply iteration_Return in Hit as (s1 & s2 & s3 & s4 & Hg & Hwl & Hn & Hs & Hb).
    apply select_Return in Hg as [Hg _]. apply select_Return in Hwl as [Hwl _].
    apply select_Return in Hn as [Hn _]. apply select_Return in Hs as [Hs _].
    apply generateUniqueBirthdate_Return in Hb
      as (vmax & vmin & minTime & maxTime & k & ts
          & Hgmax & Hgmin & Hymin & Hymax & _ & Hts & Hv & Hhas & -> & Hiso & _).
    exists (ts :: tss). repeat split.
    + simpl. now rewrite Hiso, Hmap.
    + now constructor.
    + constructor; [|assumption].
      intros Hin. apply (Hnew ts Hin). apply in_or_app. right. now left.
    + intros t [<-|Hin].
      * rewrite <- Set_has_In. now rewrite Hhas.
      * intros Hu. apply (Hnew t Hin). apply in_or_app. now left.
    + intros j t Hj. destruct j as [|j]; simpl in Hj.
      * apply Some_inj in Hj as <-. exists k.
        replace (reads st + 0)%nat with (reads s4) by lia.
        now exists vmax, vmin, minTime, maxTime.
      * destruct (Hiss j t Hj) as (k' & Hk'). exists k'.
        now replace (reads st + S j)%nat with (reads st' + j)%nat by lia.
Qed.

(** The records of a call of [main] that returns, and their timestamps. *)
Lemma main_issued w fuel dtoIn n age l :
  valid_request dtoIn n age ->
  main w fuel dtoIn = Return l ->
  exists tss,
    map birthdate l = map isoString tss
    /\ Forall valid_time tss
    /\ NoDup tss
    /\ forall j ts, nth_error tss j = Some ts -> exists k, issued w age j k ts.
Proof.
  intros (Hc & Ha & Hage) Hmain.
  apply (main_run w fuel dtoIn (JNum n) age l Hc Ha eq_refl Hage) in Hmain.
  apply loop_run_issued in Hmain as (tss & Hmap & Hv & Hnd & _ & Hiss).
  exists tss. repeat split; assumption.
Qed.

Lemma map_nth_error_eq {A B C} (f : A -> C) (g : B -> C) (l : list A) (l' : list B) j a :
  map f l = map g l' -> nth_error l j = Some a ->
  exists b, nth_error l' j = Some b /\ f a = g b.
Proof.
  revert l' j. induction l as [|x l IH]; intros [|y l'] j Hmap Hj; try discriminate.
  - destruct j; discriminate.
  - injection Hmap as Hxy Hmap. destruct j as [|j]; simpl in *.
    + apply Some_inj in Hj as <-. now exists y.
    + now apply IH.
Qed.

(** The timestamp of one record of a call that returns. *)
Lemma main_record_issued w fuel dtoIn n age l i e :
  valid_request dtoIn n age ->
  main w fuel dtoIn = Return l ->
  nth_error l i = Some e ->
  exists ts k, birthdate e = isoString ts /\ valid_time ts /\ issued w age i k ts.
Proof.
  intros Hv Hmain He.
  destruct (main_issued w fuel dtoIn n age l Hv Hmain) as (tss & Hmap & Hvalid & _ & Hiss).
  destruct (map_nth_error_eq _ _ _ _ _ _ Hmap He) as (ts & Hts & Hiso).
  destruct (Hiss i ts Hts) as (k & Hk).
  exists ts, k. repeat split; try assumption.
  rewrite Forall_forall in Hvalid. apply Hvalid. eapply nth_error_In; eassumption.
Qed.

(** ** The selectors give entries of their arrays *)

Lemma at_index_In (l : list jsval) (i : Z) : 0 <= i < len l -> In (at_index l i) l.
Proof.
  unfold at_index, len. intros Hi.
  destruct (Z.ltb_spec i 0) as [H|_]; [lia|].
  apply nth_In. lia.
Qed.

Lemma select_In w (list : list jsval) i st v st' :
  0 <= i -> 0 < len list -> in_unit_interval (random w (draws st)) ->
  (if i <? len list then ret (at_index list i)
   else k <- randomInt w (len list) ;; ret (at_index list k)) st = Return (v, st') ->
  In v list.
Proof.
  intros Hi Hl Hr H. apply select_Return in H as [_ H].
  destruct (Z.ltb_spec i (len list)) as [Hlt|_]; destruct H as [-> _].
  - apply at_index_In. lia.
  - apply at_index_In. now apply floor_mul_range.
Qed.

Lemma names_of_length (g : jsval) : len (names_of g) = 16 /\ len (surnames_of g) = 16.
Proof. unfold names_of, surnames_of. now destruct (strict_eq_string g "male"). Qed.

(** X1: with [Math.random()] in [[0, 1)], every record of a call that
    returns has a gender that is ["male"] or ["female"] and a workload that
    is 10, 20, 30 or 40: beyond the first entries, which are taken by
    index, the random index never leaves the array. *)
Theorem records_gender_and_workload (w : World) (fuel : nat) (dtoIn : jsval)
    (count : number) (age : jsval) (l : list Employee) (e : Employee) :
  (forall n, in_unit_interval (random w n)) ->
  valid_request dtoIn count age ->
  main w fuel dtoIn = Return l ->
  In e l ->
  In (gender e) genders /\ In (workload e) workloads.
Proof.
  intros Hw Hv Hmain Hin.
  apply In_nth_error in Hin as (k & Hk).
  destruct (main_nth w fuel dtoIn count age l k e Hv Hmain Hk)
    as (used & st & used' & st' & Hit & _).
  apply iteration_Return in Hit as (s1 & s2 & s3 & s4 & Hg & Hwl & _).
  split.
  - apply (select_In w genders (Z.of_nat k) st _ s1); try apply Hw; try lia.
    + reflexivity.
    + exact Hg.
  - apply (select_In w workloads (Z.of_nat k) s1 _ s2); try apply Hw; try lia.
    + reflexivity.
    + exact Hwl.
Qed.

(** X2: the name and the surname of every record are entries of the lists
    of its own gender: a ["male"] record has a male first name and a male
    surname, a ["female"] record female ones. *)
Theorem records_names_match_gender (w : World) (fuel : nat) (dtoIn : jsval)
    (count : number) (age : jsval) (l : list Employee) (e : Employee) :
  (forall n, in_unit_interval (random w n)) ->
  valid_request dtoIn count age ->
  main w fuel dtoIn = Return l ->
  In e l ->
  (gender e = JStr "male" /\ In (name e) maleNames /\ In (surname e) male)
  \/ (gender e = JStr "female" /\ In (name e) femaleNames /\ In (surname e) female).
Proof.
  intros Hw Hv Hmain Hin.
  apply In_nth_error in Hin as (k & Hk).
  destruct (main_nth w fuel dtoIn count age l k e Hv Hmain Hk)
    as (used & st & used' & st' & Hit & _).
  apply iteration_Return in Hit as (s1 & s2 & s3 & s4 & Hg & _ & Hn & Hs & _).
  apply (select_In w genders (Z.of_nat k) st _ s1) in Hg;
    [| lia | reflexivity | apply Hw].
  assert (Hname : In (name e) (names_of (gender e))).
  { apply (select_In w _ (Z.of_nat k) s2 _ s3); try apply Hw; try lia.
    - now rewrite (proj1 (names_of_length _)).
    - exact Hn. }
  assert (Hsur : In (surname e) (surnames_of (gender e))).
  { apply (select_In w _ (Z.of_nat k) s3 _ s4); try apply Hw; try lia.
    - now rewrite (proj2 (names_of_length _)).
    - exact Hs. }
  destruct Hg as [Hg|[Hg|[]]]; rewrite <- Hg in *; [left|right]; repeat split; assumption.
Qed.

(** ** The number of records for any count *)

Lemma lt_number_ceiling (i m e : Z) : lt_number i (Finite m e) = (i <? ceiling m e).
Proof.
  unfold lt_number, ceiling.
  destruct (Z.leb_spec 0 e) as [He|He]; [reflexivity|].
  assert (Hp : 0 < 2 ^ (- e)) by (apply pow2_pos; lia).
  generalize dependent (2 ^ (- e)). intros p Hp.
  pose proof (Z.div_mod (- m) p ltac:(lia)) as Hdm.
  pose proof (Z.mod_pos_bound (- m) p Hp) as Hr.
  destruct (Z.ltb_spec (i * p) m) as [H1|H1];
    destruct (Z.ltb_spec i (- (- m / p))) as [H2|H2]; try reflexivity; exfalso; nia.
Qed.

Lemma loop_run_ceiling w tries (m e : Z) age i used st es :
  loop_run w tries (JNum (Finite m e)) age i used st es ->
  Z.of_nat (List.length es) = Z.max 0 (ceiling m e - i).
Proof.
  induction 1 as [i used st Hlt|i used st x used' st' es Hlt Hit Hrun IH];
    cbn [less_than] in Hlt; rewrite lt_number_ceiling in Hlt.
  - apply Z.ltb_ge in Hlt. simpl. lia.
  - apply Z.ltb_lt in Hlt. simpl List.length. lia.
Qed.

Lemma loop_run_endless w tries (negative : bool) age i used st es :
  loop_run w tries (JNum (Infinity negative)) age i used st es ->
  negative = true /\ es = [].
Proof.
  induction 1 as [i used st Hlt|i used st x used' st' es Hlt Hit Hrun IH];
    simpl in Hlt.
  - destruct negative; [now split|discriminate].
  - destruct IH as [-> _]. discriminate.
Qed.

(** X3: a call with a finite [count], integral or not, that returns gives
    as many records as the loop has indices below [count]: [count] rounded
    up to an integer, and none when [count] is zero or less. *)
Theorem main_rounds_count_up (w : World) (fuel : nat) (dtoIn : jsval) (m e : Z)
    (age : jsval) (l : list Employee) :
  valid_request dtoIn (Finite m e) age ->
  main w fuel dtoIn = Return l ->
  Z.of_nat (List.length l) = Z.max 0 (ceiling m e).
Proof.
  intros (Hc & Ha & Hage) Hmain.
  apply (main_run w fuel dtoIn _ age l Hc Ha eq_refl Hage) in Hmain.
  apply loop_run_ceiling in Hmain. now rewrite Z.sub_0_r in Hmain.
Qed.

(** X4: [count = Infinity] passes the guard and the test of the loop
    never fails: with any fuel the call does not return.  With
    [-Infinity] the call returns the empty list. *)
Theorem main_infinite_count (w : World) (fuel : nat) (dtoIn : jsval)
    (negative : bool) (age : jsval) :
  valid_request dtoIn (Infinity negative) age ->
  if negative then main w fuel dtoIn = Return []
  else returned (main w fuel dtoIn) = false.
Proof.
  intros (Hc & Ha & Hage).
  destruct negative.
  - unfold main, run. rewrite (bind_eq _ _ _ _ _ (lift_eq _ _ _ Hc)).
    rewrite (bind_eq _ _ _ _ _ (lift_eq _ _ _ Ha)).
    rewrite Hage. destruct (ToBoolean dtoIn) eqn:Hd.
    + simpl. now destruct fuel.
    + reflexivity.
  - destruct (main w fuel dtoIn) as [l| |] eqn:Hmain; try reflexivity.
    apply (main_run w fuel dtoIn _ age l Hc Ha eq_refl Hage) in Hmain.
    apply loop_run_endless in Hmain as [Hneg _]. discriminate.
Qed.

(** ** The window, whatever the order of its bounds *)

Lemma fl_opp (z : Z) : fl (- z) = - fl z.
Proof.
  unfold fl.
  destruct (Z.ltb_spec (- z) 0) as [H1|H1]; destruct (Z.ltb_spec z 0) as [H2|H2];
    try lia.
  - now rewrite Z.opp_involutive.
  - replace z with 0 by lia. reflexivity.
Qed.

(** [Math.floor(r * -x)] is [-Math.floor(r * x)] or one less. *)
Lemma floor_mul_opp (r : unit_double) (x : Z) :
  in_unit_interval r -> 0 <= x ->
  - floor_mul r x - 1 <= floor_mul r (- x) <= - floor_mul r x.
Proof.
  intros [Hm Hs] Hx. unfold floor_mul.
  replace (significand r * - x) with (- (significand r * x)) by lia.
  rewrite fl_opp.
  assert (H0 : 0 <= fl (significand r * x)).
  { rewrite fl_nonneg by nia. apply round53_nonneg. nia. }
  assert (Hp : 0 < 2 ^ (53 + shift r)) by (apply pow2_pos; lia).
  generalize dependent (fl (significand r * x)). intros R HR.
  generalize dependent (2 ^ (53 + shift r)). intros p Hp.
  pose proof (Z.div_mod R p ltac:(lia)) as H1.
  pose proof (Z.mod_pos_bound R p Hp) as H2.
  pose proof (Z.div_mod (- R) p ltac:(lia)) as H3.
  pose proof (Z.mod_pos_bound (- R) p Hp) as H4.
  split; nia.
Qed.

(** The timestamp drawn from a window of valid bounds lies between them:
    the upper bound is left out when the bounds are in order, and both can
    be drawn when they are not. *)
Lemma draw_between (r : unit_double) (minTime maxTime : Z) :
  in_unit_interval r -> valid_time minTime -> valid_time maxTime ->
  (minTime < maxTime ->
   minTime <= fl (minTime + floor_mul r (fl (maxTime - minTime))) < maxTime)
  /\ (maxTime <= minTime ->
      maxTime <= fl (minTime + floor_mul r (fl (maxTime - minTime))) <= minTime).
Proof.
  intros Hr Hmin Hmax. split; intros Hlt.
  - now apply window_draw.
  - unfold valid_time, timeLimit in *.
    assert (Hp : 2 ^ 53 = 9007199254740992) by reflexivity.
    assert (Hq : 2 ^ 54 = 18014398509481984) by reflexivity.
    assert (Hf : maxTime - minTime <= floor_mul r (fl (maxTime - minTime)) <= 0).
    { destruct (Z.eq_dec maxTime minTime) as [->|Hne].
      - rewrite Z.sub_diag. change (fl 0) with 0. rewrite floor_mul_zero. lia.
      - destruct (Z.le_gt_cases (minTime - maxTime) (2 ^ 53)) as [Hs|Hs].
        + rewrite fl_exact by lia. apply floor_mul_range_neg; [assumption|lia].
        + replace (maxTime - minTime) with (- (minTime - maxTime)) by lia.
          rewrite fl_opp.
          pose proof (floor_mul_fl_wide r (minTime - maxTime) Hr ltac:(lia)) as Hwide.
          assert (H0 : 0 <= fl (minTime - maxTime)).
          { rewrite fl_nonneg by lia. apply round53_nonneg. lia. }
          pose proof (floor_mul_opp r (fl (minTime - maxTime)) Hr H0). lia. }
    rewrite fl_exact by lia. lia.
Qed.

Lemma issued_between w age c k ts age_min age_max minTime maxTime :
  in_unit_interval (random w k) ->
  Get age "min" = Return age_min -> Get age "max" = Return age_max ->
  yearsBefore w (Some (clock w c)) age_max = Return (Some minTime) ->
  yearsBefore w (Some (clock w c)) age_min = Return (Some maxTime) ->
  issued w age c k ts ->
  (minTime < maxTime -> minTime <= ts < maxTime)
  /\ (maxTime <= minTime -> maxTime <= ts <= minTime).
Proof.
  intros Hr Hmin Hmax Hymin Hymax (vmax & vmin & mn & mx & Hgmax & Hgmin & Hmn & Hmx & Hts).
  rewrite Hmax in Hgmax. rewrite Hmin in Hgmin.
  apply Return_inj in Hgmax, Hgmin. subst vmax vmin.
  rewrite Hymin in Hmn. rewrite Hymax in Hmx.
  apply Return_inj in Hmn, Hmx. subst mn mx.
  cbn [plus floor_times minus option_map] in Hts. apply Some_inj in Hts.
  rewrite <- Hts. apply draw_between; [assumption| |].
  - exact (yearsBefore_valid _ _ _ _ Hymin).
  - exact (yearsBefore_valid _ _ _ _ Hymax).
Qed.

(** X5: whatever [age.min] and [age.max] are (integers or not, in order
    or not), when they give valid bounds [minTime] (the reading of the clock
    less [age.max] years) and [maxTime] (less [age.min] years), the
    birthdate of the record is the string of a timestamp between the two:
    in [[minTime, maxTime)] when [minTime < maxTime], and in
    [[maxTime, minTime]] otherwise, which is [minTime] itself when the
    bounds are equal. *)
Theorem birthdate_between_bounds (w : World) (fuel : nat) (dtoIn : jsval)
    (count : number) (age age_min age_max : jsval) (minTime maxTime : Z)
    (l : list Employee) (i : nat) (e : Employee) :
  (forall n, in_unit_interval (random w n)) ->
  valid_request dtoIn count age ->
  Get age "min" = Return age_min ->
  Get age "max" = Return age_max ->
  yearsBefore w (Some (clock w i)) age_max = Return (Some minTime) ->
  yearsBefore w (Some (clock w i)) age_min = Return (Some maxTime) ->
  main w fuel dtoIn = Return l ->
  nth_error l i = Some e ->
  exists ts,
    birthdate e = isoString ts /\ valid_time ts
    /\ (minTime < maxTime -> minTime <= ts < maxTime)
    /\ (maxTime <= minTime -> maxTime <= ts <= minTime).
Proof.
  intros Hw Hv Hmin Hmax Hymin Hymax Hmain He.
  destruct (main_record_issued w fuel dtoIn count age l i e Hv Hmain He)
    as (ts & k & Hiso & Hvalid & Hiss).
  exists ts. split; [assumption|]. split; [assumption|].
  exact (issued_between w age i k ts age_min age_max minTime maxTime
           (Hw k) Hmin Hmax Hymin Hymax Hiss).
Qed.

(** ** The calendar, back and forth *)

Lemma DayFromYear_le (y1 y2 : Z) : y1 <= y2 -> DayFromYear y1 <= DayFromYear y2.
Proof.
  intros H. destruct (Z.eq_dec y1 y2) as [->|Hne]; [lia|].
  pose proof (DayFromYear_lt y1 y2 ltac:(lia)). lia.
Qed.

(** The year of a day is the only year the day falls in. *)
Lemma YearFromDay_unique (d y : Z) :
  DayFromYear y <= d < DayFromYear (y + 1) -> YearFromDay d = y.
Proof.
  intros H. pose proof (YearFromDay_spec d) as Hs.
  destruct (Z.lt_trichotomy (YearFromDay d) y) as [Hlt|[Heq|Hgt]]; [|assumption|].
  - pose proof (DayFromYear_le (YearFromDay d + 1) y ltac:(lia)). lia.
  - pose proof (DayFromYear_le (y + 1) (YearFromDay d) ltac:(lia)). lia.
Qed.

Lemma YearFromTime_le (t1 t2 : Z) : t1 <= t2 -> YearFromTime t1 <= YearFromTime t2.
Proof.
  intros H. unfold YearFromTime.
  assert (Hd : Day t1 <= Day t2) by (apply Z.div_le_mono; [reflexivity|assumption]).
  pose proof (YearFromDay_spec (Day t1)) as H1.
  pose proof (YearFromDay_spec (Day t2)) as H2.
  destruct (Z.le_gt_cases (YearFromDay (Day t1)) (YearFromDay (Day t2))) as [|Hgt];
    [assumption|].
  pose proof (DayFromYear_le (YearFromDay (Day t2) + 1) (YearFromDay (Day t1)) ltac:(lia)).
  lia.
Qed.

Lemma DaysInYear_leapOf (y : Z) : DaysInYear y = 365 + leapOf y.
Proof.
  unfold leapOf. destruct (DaysInYear_cases y) as [E|E]; rewrite E; reflexivity.
Qed.

Ltac next_month :=
  repeat match goal with
         | |- context [monthStart ?l (?a + 1)] =>
             let v := eval compute in (a + 1) in change (a + 1) with v
         | H : context [monthStart ?l (?a + 1)] |- _ =>
             let v := eval compute in (a + 1) in change (a + 1) with v in H
         end;
  cbn [monthStart] in *.

(** The day within the year lies in its month. *)
Lemma monthOfDay_bounds (leap d : Z) :
  0 <= leap <= 1 -> 0 <= d < 365 + leap ->
  monthStart leap (monthOfDay leap d) <= d < monthStart leap (monthOfDay leap d + 1).
Proof.
  intros Hl Hd. unfold monthOfDay.
  repeat match goal with
         | |- context [if ?a <? ?b then _ else _] => destruct (Z.ltb_spec a b)
         end; next_month; lia.
Qed.

Lemma twelve_cases (m : Z) :
  0 <= m <= 11 ->
  m = 0 \/ m = 1 \/ m = 2 \/ m = 3 \/ m = 4 \/ m = 5 \/ m = 6 \/ m = 7 \/ m = 8
  \/ m = 9 \/ m = 10 \/ m = 11.
Proof. lia. Qed.

Ltac each_month H :=
  destruct H as [->|[->|[->|[->|[->|[->|[->|[->|[->|[->|[->| ->]]]]]]]]]]].

Lemma monthStart_date (leap m date : Z) :
  0 <= leap <= 1 -> 0 <= m <= 11 -> 1 <= date <= 31 ->
  0 <= monthStart leap m + date - 1 < 365 + leap.
Proof.
  intros Hl Hm Hd. apply twelve_cases in Hm. each_month Hm; cbn [monthStart]; lia.
Qed.

(** A date of one year in another year: the same month and date, but
    1 March for 29 February in a year that is not a leap year. *)
Lemma monthOfDay_moved (l1 l2 m date : Z) :
  0 <= l1 <= 1 -> 0 <= l2 <= 1 -> 0 <= m <= 11 -> 1 <= date ->
  monthStart l1 m + date - 1 < monthStart l1 (m + 1) ->
  let d := monthStart l2 m + date - 1 in
  if (m =? 1) && (date =? 29) && (l2 =? 0)
  then monthOfDay l2 d = 2 /\ d - monthStart l2 2 + 1 = 1
  else monthOfDay l2 d = m /\ d - monthStart l2 m + 1 = date.
Proof.
  intros H1 H2 Hm Hd Hin. apply twelve_cases in Hm.
  each_month Hm; next_month; cbv zeta;
    cbn [Z.eqb Pos.eqb andb];
    try (unfold monthOfDay;
         repeat match goal with
                | |- context [if ?a <? ?b then _ else _] => destruct (Z.ltb_spec a b)
                end; lia).
  destruct (Z.eqb_spec date 29) as [->|Hne]; destruct (Z.eqb_spec l2 0) as [->|Hl];
    cbn [andb]; unfold monthOfDay;
    repeat match goal with
           | |- context [if ?a <? ?b then _ else _] => destruct (Z.ltb_spec a b)
           end; lia.
Qed.

Lemma Day_inYear (lt y : Z) :
  Day (inYear lt y)
  = DayFromYear y + monthStart (leapOf y) (MonthFromTime lt) + DateFromTime lt - 1
  /\ TimeWithinDay (inYear lt y) = TimeWithinDay lt.
Proof.
  unfold inYear, Day, TimeWithinDay.
  pose proof (Z.mod_pos_bound lt msPerDay ltac:(reflexivity)) as Hmod.
  generalize dependent (lt mod msPerDay).
  generalize (DayFromYear y + monthStart (leapOf y) (MonthFromTime lt) + DateFromTime lt - 1).
  unfold msPerDay. intros d r Hr. Z.div_mod_to_equations. lia.
Qed.

(** Moving a local time to year [y] gives a time of year [y]. *)
Lemma YearFromTime_inYear (lt y : Z) : YearFromTime (inYear lt y) = y.
Proof.
  unfold YearFromTime. rewrite (proj1 (Day_inYear lt y)).
  apply YearFromDay_unique.
  rewrite DayFromYear_succ, DaysInYear_leapOf.
  pose proof (monthStart_date (leapOf y) (MonthFromTime lt) (DateFromTime lt)
                (leapOf_range y) (MonthFromTime_range lt) (DateFromTime_range lt)).
  lia.
Qed.

Lemma DayWithinYear_inYear (lt y : Z) :
  DayWithinYear (inYear lt y)
  = monthStart (leapOf y) (MonthFromTime lt) + DateFromTime lt - 1.
Proof.
  unfold DayWithinYear. rewrite YearFromTime_inYear, (proj1 (Day_inYear lt y)). lia.
Qed.

(** Moving a local time to its own year changes nothing. *)
Lemma inYear_same (lt : Z) : inYear lt (YearFromTime lt) = lt.
Proof.
  unfold inYear. fold (InLeapYear lt).
  unfold DateFromTime, DayWithinYear, TimeWithinDay, Day.
  generalize (DayFromYear (YearFromTime lt)) (monthStart (InLeapYear lt) (MonthFromTime lt)).
  unfold msPerDay. intros a b. Z.div_mod_to_equations. lia.
Qed.

Lemma month_and_date_inYear (lt y : Z) :
  if (MonthFromTime lt =? 1) && (DateFromTime lt =? 29) && (leapOf y =? 0)
  then MonthFromTime (inYear lt y) = 2 /\ DateFromTime (inYear lt y) = 1
  else MonthFromTime (inYear lt y) = MonthFromTime lt
       /\ DateFromTime (inYear lt y) = DateFromTime lt.
Proof.
  pose proof (monthOfDay_bounds (InLeapYear lt) (DayWithinYear lt)
                (leapOf_range _) (DayWithinYear_range lt)) as Hb.
  fold (MonthFromTime lt) in Hb.
  pose proof (monthOfDay_moved (InLeapYear lt) (leapOf y) (MonthFromTime lt)
                (DateFromTime lt) (leapOf_range _) (leapOf_range y)
                (MonthFromTime_range lt) (proj1 (DateFromTime_range lt))) as Hmv.
  assert (Hin : monthStart (InLeapYear lt) (MonthFromTime lt) + DateFromTime lt - 1
                < monthStart (InLeapYear lt) (MonthFromTime lt + 1)).
  { unfold DateFromTime. lia. }
  specialize (Hmv Hin). cbv zeta in Hmv.
  assert (HM : MonthFromTime (inYear lt y)
               = monthOfDay (leapOf y)
                   (monthStart (leapOf y) (MonthFromTime lt) + DateFromTime lt - 1)).
  { unfold MonthFromTime at 1. unfold InLeapYear.
    now rewrite YearFromTime_inYear, DayWithinYear_inYear. }
  assert (HD : DateFromTime (inYear lt y)
               = monthStart (leapOf y) (MonthFromTime lt) + DateFromTime lt - 1
                 - monthStart (leapOf y) (MonthFromTime (inYear lt y)) + 1).
  { unfold DateFromTime at 1. unfold InLeapYear.
    now rewrite YearFromTime_inYear, DayWithinYear_inYear. }
  destruct ((MonthFromTime lt =? 1) && (DateFromTime lt =? 29) && (leapOf y =? 0));
    destruct Hmv as [Hm Hd]; rewrite HD, HM, Hm; split; (reflexivity || assumption).
Qed.

(** ** Years before now *)

Lemma LocalTime_eq w (t : Z) : LocalTime w t = t + LocalTZA w t true.
Proof. reflexivity. Qed.

(** In a zone of fixed offset, the local time of the instant [a] years
    before [now] is the local time of [now], moved [a] years back. *)
Lemma yearsBefore_local w offset now a t :
  WorldOk w -> fixed_offset w offset ->
  yearsBefore w (Some now) (JNum (ofZ a)) = Return (Some t) ->
  LocalTime w t = inYear (LocalTime w now) (YearFromTime (LocalTime w now) - a).
Proof.
  intros Hw Hfix H.
  destruct (yearsBefore_integer w now a t Hw H) as (_ & _ & Ht).
  remember (LocalTime w now) as lt eqn:Elt.
  rewrite UTC_eq, Hfix in Ht. rewrite LocalTime_eq, Hfix, Ht.
  generalize (inYear lt (YearFromTime lt - a)). intros u. lia.
Qed.

(** The same date of an earlier year is 364 days earlier at least. *)
Lemma inYear_earlier (lt y1 y2 : Z) :
  y1 < y2 -> inYear lt y1 + 364 * msPerDay <= inYear lt y2.
Proof.
  intros Hy.
  pose proof (DayFromYear_lt y1 y2 Hy) as Hd.
  pose proof (monthStart_leap (leapOf y1) (leapOf y2) (MonthFromTime lt)
                (leapOf_range _) (leapOf_range _) (MonthFromTime_range lt)) as Hm.
  unfold inYear.
  generalize dependent (DayFromYear y1). generalize dependent (DayFromYear y2).
  generalize dependent (monthStart (leapOf y1) (MonthFromTime lt)).
  generalize dependent (monthStart (leapOf y2) (MonthFromTime lt)).
  generalize (DateFromTime lt) (TimeWithinDay lt).
  unfold msPerDay. intros. lia.
Qed.

(** One year or more before [now] is before [now], by 362 days at least. *)
Lemma yearsBefore_past w now a t :
  WorldOk w -> 1 <= a ->
  yearsBefore w (Some now) (JNum (ofZ a)) = Return (Some t) ->
  t + 362 * msPerDay <= now.
Proof.
  intros Hw Ha H.
  destruct (yearsBefore_integer w now a t Hw H) as (_ & _ & Ht).
  destruct Hw as [_ Htz].
  pose proof (LocalTime_eq w now) as Elt.
  pose proof (Htz now true) as Hz1.
  remember (LocalTime w now) as lt eqn:El. clear El.
  pose proof (inYear_earlier lt (YearFromTime lt - a) (YearFromTime lt) ltac:(lia)) as He.
  rewrite inYear_same in He.
  rewrite UTC_eq in Ht.
  pose proof (Htz (inYear lt (YearFromTime lt - a)) false) as Hz2.
  remember (inYear lt (YearFromTime lt - a)) as u eqn:Eu. clear Eu.
  remember (LocalTZA w u false) as z2 eqn:E2. clear E2.
  remember (LocalTZA w now true) as z1 eqn:E1. clear E1.
  unfold msPerDay in *. lia.
Qed.

(** The bounds of the window for integral ages in order. *)
Lemma issued_integer_ages w age c k ts age_min age_max :
  WorldOk w ->
  Get age "min" = Return (JNum (ofZ age_min)) ->
  Get age "max" = Return (JNum (ofZ age_max)) ->
  age_min <= age_max ->
  issued w age c k ts ->
  exists minTime maxTime,
    yearsBefore w (Some (clock w c)) (JNum (ofZ age_max)) = Return (Some minTime)
    /\ yearsBefore w (Some (clock w c)) (JNum (ofZ age_min)) = Return (Some maxTime)
    /\ minTime <= ts <= maxTime
    /\ (age_min < age_max -> ts < maxTime).
Proof.
  intros Hw Hmin Hmax Hle Hiss.
  pose proof Hiss as (vmax & vmin & mn & mx & Hgmax & Hgmin & Hmn & Hmx & Hts).
  rewrite Hmax in Hgmax. rewrite Hmin in Hgmin.
  apply Return_inj in Hgmax, Hgmin. subst vmax vmin.
  destruct mn as [mn|]; [|discriminate]. destruct mx as [mx|]; [|discriminate].
  exists mn, mx. split; [assumption|]. split; [assumption|].
  destruct (issued_between w age c k ts _ _ mn mx (proj1 Hw k) Hmin Hmax Hmn Hmx Hiss)
    as [Hord Hinv].
  destruct (Z.eq_dec age_min age_max) as [Heq|Hne].
  - rewrite Heq in Hmx. rewrite Hmx in Hmn. apply Return_inj, Some_inj in Hmn.
    subst mx. lia.
  - pose proof (yearsBefore_lt w _ age_min age_max mx mn Hw ltac:(lia) Hmx Hmn). lia.
Qed.

(** X6: for integral ages with [1 <= age.min < age.max], every birthdate
    is in the past: its timestamp is earlier than the reading of the clock
    made for the record. *)
Theorem birthdate_in_past (w : World) (fuel : nat) (dtoIn : jsval) (count : number)
    (age : jsval) (age_min age_max : Z) (l : list Employee) (i : nat) (e : Employee) :
  WorldOk w ->
  valid_request dtoIn count age ->
  Get age "min" = Return (JNum (ofZ age_min)) ->
  Get age "max" = Return (JNum (ofZ age_max)) ->
  1 <= age_min < age_max ->
  main w fuel dtoIn = Return l ->
  nth_error l i = Some e ->
  exists ts, birthdate e = isoString ts /\ valid_time ts /\ ts < clock w i.
Proof.
  intros Hw Hv Hmin Hmax Hages Hmain He.
  destruct (main_record_issued w fuel dtoIn count age l i e Hv Hmain He)
    as (ts & k & Hiso & Hvalid & Hiss).
  exists ts. split; [assumption|]. split; [assumption|].
  destruct (issued_integer_ages w age i k ts age_min age_max Hw Hmin Hmax
              ltac:(lia) Hiss) as (mn & mx & _ & Hmx & Hin & _).
  pose proof (yearsBefore_past w _ age_min mx Hw ltac:(lia) Hmx) as Hpast.
  unfold msPerDay in Hpast. lia.
Qed.

(** X7: in a time zone of fixed offset, subtracting [a] whole years from
    [now] as the program does ([setFullYear(getFullYear() - a)]) gives,
    in local time, the year of [now] less [a], the same time of day, and
    the same month and date, except that 29 February becomes 1 March when
    the target year is not a leap year. *)
Theorem yearsBefore_same_date (w : World) (offset now a t : Z) :
  WorldOk w -> fixed_offset w offset ->
  yearsBefore w (Some now) (JNum (ofZ a)) = Return (Some t) ->
  getFullYear w (Some t) = ofZ (YearFromTime (LocalTime w now) - a)
  /\ TimeWithinDay (LocalTime w t) = TimeWithinDay (LocalTime w now)
  /\ if (MonthFromTime (LocalTime w now) =? 1) && (DateFromTime (LocalTime w now) =? 29)
        && (leapOf (YearFromTime (LocalTime w now) - a) =? 0)
     then MonthFromTime (LocalTime w t) = 2 /\ DateFromTime (LocalTime w t) = 1
     else MonthFromTime (LocalTime w t) = MonthFromTime (LocalTime w now)
          /\ DateFromTime (LocalTime w t) = DateFromTime (LocalTime w now).
Proof.
  intros Hw Hfix H.
  pose proof (yearsBefore_local w offset now a t Hw Hfix H) as Hlt.
  change (getFullYear w (Some t)) with (ofZ (YearFromTime (LocalTime w t))).
  rewrite Hlt.
  generalize (LocalTime w now). intros lt.
  split; [now rewrite YearFromTime_inYear|].
  split; [apply Day_inYear|].
  apply month_and_date_inYear.
Qed.

(** X8: in a time zone of fixed offset and for integral ages with
    [age.min <= age.max], the local year of every birthdate is between the
    local year of the record's reading of the clock less [age.max] and
    that year less [age.min]. *)
Theorem birth_year_in_range (w : World) (offset : Z) (fuel : nat) (dtoIn : jsval)
    (count : number) (age : jsval) (age_min age_max : Z) (l : list Employee)
    (i : nat) (e : Employee) :
  WorldOk w -> fixed_offset w offset ->
  valid_request dtoIn count age ->
  Get age "min" = Return (JNum (ofZ age_min)) ->
  Get age "max" = Return (JNum (ofZ age_max)) ->
  age_min <= age_max ->
  main w fuel dtoIn = Return l ->
  nth_error l i = Some e ->
  exists ts,
    birthdate e = isoString ts /\ valid_time ts
    /\ YearFromTime (LocalTime w (clock w i)) - age_max
       <= YearFromTime (LocalTime w ts)
       <= YearFromTime (LocalTime w (clock w i)) - age_min.
Proof.
  intros Hw Hfix Hv Hmin Hmax Hages Hmain He.
  destruct (main_record_issued w fuel dtoIn count age l i e Hv Hmain He)
    as (ts & k & Hiso & Hvalid & Hiss).
  exists ts. split; [assumption|]. split; [assumption|].
  destruct (issued_integer_ages w age i k ts age_min age_max Hw Hmin Hmax Hages Hiss)
    as (mn & mx & Hmn & Hmx & Hin & _).
  pose proof (yearsBefore_local w offset _ _ _ Hw Hfix Hmn) as Lmn.
  pose proof (yearsBefore_local w offset _ _ _ Hw Hfix Hmx) as Lmx.
  apply (f_equal YearFromTime) in Lmn, Lmx.
  rewrite YearFromTime_inYear in Lmn, Lmx.
  rewrite <- Lmn, <- Lmx. rewrite !(LocalTime_eq w ts), !(LocalTime_eq w mn),
    !(LocalTime_eq w mx), !Hfix.
  split; apply YearFromTime_le; lia.
Qed.

(** ** Every index can be drawn *)

Lemma rne_shift_ge (n s : Z) : n / 2 ^ s <= rne_shift n s.
Proof.
  unfold rne_shift.
  repeat match goal with |- context [if ?b then _ else _] => destruct b end; lia.
Qed.

(** A multiple of [2 ^ 53] below [2 ^ 106] is a binary64 number. *)
Lemma round53_multiple_exact (n : Z) :
  0 <= n < 2 ^ 53 -> round53 (n * 2 ^ 53) = n * 2 ^ 53.
Proof.
  intros Hn. destruct (Z.eq_dec n 0) as [->|Hne]; [reflexivity|].
  unfold round53. rewrite Z.log2_mul_pow2 by lia.
  assert (Hl : 0 <= Z.log2 n < 53).
  { split; [apply Z.log2_nonneg|]. apply Z.log2_lt_pow2; lia. }
  destruct (Z.leb_spec (53 + Z.log2 n - 52) 0) as [Hs|Hs]; [reflexivity|].
  set (s := 53 + Z.log2 n - 52) in *.
  assert (Hx : n * 2 ^ 53 = n * 2 ^ (53 - s) * 2 ^ s).
  { rewrite <- Z.mul_assoc, <- Z.pow_add_r by lia. f_equal. f_equal. lia. }
  assert (Hq : n * 2 ^ 53 / 2 ^ s = n * 2 ^ (53 - s)).
  { rewrite Hx. apply Z.div_mul, Z.pow_nonzero; lia. }
  assert (Hr : (n * 2 ^ 53) mod 2 ^ s = 0).
  { rewrite Hx. apply Z.mod_mul, Z.pow_nonzero; lia. }
  unfold rne_shift. cbv zeta. rewrite Hq, Hr.
  pose proof (pow2_pos (s - 1) ltac:(lia)) as Hh.
  destruct (Z.ltb_spec 0 (2 ^ (s - 1))) as [_|]; [|lia].
  symmetry. exact Hx.
Qed.

(** Rounding does not go below a binary64 number that the argument is not
    below. *)
Lemma round53_ge (a x : Z) : 0 <= a <= x -> round53 a = a -> a <= round53 x.
Proof.
  intros Ha Hrep. unfold round53.
  destruct (Z.leb_spec (Z.log2 x - 52) 0) as [Hs|Hs]; [lia|].
  set (s := Z.log2 x - 52) in *.
  assert (Hp : 0 < 2 ^ s) by (apply pow2_pos; lia).
  assert (Hx : 0 < x) by (destruct (Z.eq_dec x 0); [subst; simpl in *; lia|lia]).
  pose proof (rne_shift_ge x s) as Hge.
  apply Z.le_trans with (x / 2 ^ s * 2 ^ s); [|nia].
  pose proof (Z.log2_le_mono a x ltac:(lia)) as Hmono.
  destruct (Z.eq_dec (Z.log2 a) (Z.log2 x)) as [Heq|Hne].
  - unfold round53 in Hrep. rewrite Heq in Hrep. fold s in Hrep.
    destruct (Z.leb_spec s 0) as [|_]; [lia|].
    rewrite <- Hrep at 1.
    apply Z.mul_le_mono_nonneg_r; [lia|].
    apply Z.div_le_lower_bound; [assumption|]. rewrite Z.mul_comm, Hrep. lia.
  - assert (Hlt : a < 2 ^ Z.log2 x).
    { destruct (Z.eq_dec a 0) as [->|Hnz]; [apply pow2_pos, Z.log2_nonneg|].
      pose proof (Z.log2_spec a ltac:(lia)) as [_ Hup].
      apply Z.lt_le_trans with (1 := Hup). apply Z.pow_le_mono_r; lia. }
    pose proof (Z.log2_spec x Hx) as [Hlo _].
    assert (Hq : 2 ^ 52 <= x / 2 ^ s).
    { apply Z.div_le_lower_bound; [assumption|].
      rewrite <- Z.pow_add_r by lia. replace (s + 52) with (Z.log2 x) by lia. exact Hlo. }
    assert (Hpw : 2 ^ Z.log2 x = 2 ^ 52 * 2 ^ s).
    { rewrite <- Z.pow_add_r by lia. f_equal. lia. }
    nia.
Qed.

(** The draw that gives the index [n] of [max]: the least binary64 number
    of [[0, 1)] whose product with [max] is [n] or more. *)
Lemma floor_mul_onto (max n : Z) :
  0 < max <= 2 ^ 52 -> 0 <= n < max ->
  let r := {| significand := (n * 2 ^ 53 + max - 1) / max; shift := 0 |} in
  in_unit_interval r /\ floor_mul r max = n.
Proof.
  intros Hmax Hn r.
  assert (Hp : 2 ^ 53 = 9007199254740992) by reflexivity.
  assert (Hq : 2 ^ 52 = 4503599627370496) by reflexivity.
  pose proof (Z.div_mod (n * 2 ^ 53 + max - 1) max ltac:(lia)) as Hdm.
  pose proof (Z.mod_pos_bound (n * 2 ^ 53 + max - 1) max ltac:(lia)) as Hr.
  set (m := (n * 2 ^ 53 + max - 1) / max) in *.
  assert (Hm : 0 <= m < 2 ^ 53) by (split; nia).
  split; [split; [exact Hm|cbn; lia]|].
  unfold floor_mul. cbn [significand shift r].
  assert (Hx : n * 2 ^ 53 <= m * max <= n * 2 ^ 53 + max - 1) by nia.
  rewrite fl_nonneg by nia.
  pose proof (round53_ge (n * 2 ^ 53) (m * max) ltac:(nia)
                (round53_multiple_exact n ltac:(lia))) as Hlo.
  pose proof (round53_error (m * max) ltac:(nia)) as Herr.
  replace (53 + 0) with 53 by lia.
  symmetry. apply Z.div_unique with (round53 (m * max) - n * 2 ^ 53).
  - left. split; [lia|]. nia.
  - lia.
Qed.

(** X9: [randomInt(max)] can return every index of an array of [max]
    entries, the last one included: for [0 <= n < max <= 2 ^ 52] there is
    a value of [Math.random()] in [[0, 1)] with which the call returns
    [n]. *)
Theorem randomInt_onto (max n : Z) :
  0 < max <= 2 ^ 52 -> 0 <= n < max ->
  exists r,
    in_unit_interval r
    /\ forall w st, random w (draws st) = r ->
         randomInt w max st
         = Return (n, {| draws := S (draws st); reads := reads st |}).
Proof.
  intros Hmax Hn.
  destruct (floor_mul_onto max n Hmax Hn) as [Hr Hf].
  eexists. split; [exact Hr|].
  intros w st Hw. unfold randomInt, bind, Math_random, ret.
  now rewrite Hw, Hf.
Qed.

(** ** The set of used birthdates *)

(** The loop returns the first candidate that the set does not hold. *)
Lemma do_while_first w tries minTime diff used st ts st' :
  do_while w tries minTime diff used st = Return (ts, st') ->
  exists k, (draws st <= k)%nat /\ draws st' = S k /\ reads st' = reads st
    /\ ts = plus minTime (floor_times (random w k) diff)
    /\ Set_has used ts = false
    /\ forall j, (draws st <= j < k)%nat ->
         Set_has used (plus minTime (floor_times (random w j) diff)) = true.
Proof.
  revert st. induction tries as [|tries IH]; intros st H; simpl in H; [discriminate|].
  apply bind_Return in H as (r & st1 & Hr & H).
  unfold Math_random in Hr. injection Hr as <- <-.
  match type of H with context [if ?b then _ else _] => destruct b eqn:E end.
  - apply IH in H as (k & Hk & Hd & Hreads & -> & Hhas & Hall). cbn [draws reads] in *.
    exists k. repeat split; auto; try lia.
    intros j Hj. destruct (Nat.eq_dec j (draws st)) as [->|Hne]; [exact E|].
    apply Hall. lia.
  - apply ret_Return in H as [-> ->]. exists (draws st). cbn [draws reads].
    repeat split; auto. intros j Hj. lia.
Qed.

Lemma generateUniqueBirthdate_first w tries age used st iso used' st' :
  generateUniqueBirthdate w tries age used st = Return ((iso, used'), st') ->
  exists age_max age_min minTime maxTime k ts,
    Get age "max" = Return age_max
    /\ Get age "min" = Return age_min
    /\ yearsBefore w (Some (clock w (reads st))) age_max = Return minTime
    /\ yearsBefore w (Some (clock w (reads st))) age_min = Return maxTime
    /\ (draws st <= k)%nat /\ draws st' = S k /\ reads st' = S (reads st)
    /\ plus minTime (floor_times (random w k) (minus maxTime minTime)) = Some ts
    /\ iso = isoString ts
    /\ forall j, (draws st <= j < k)%nat ->
         Set_has used (plus minTime (floor_times (random w j) (minus maxTime minTime)))
         = true.
Proof.
  intros H. unfold generateUniqueBirthdate in H.
  apply bind_Return in H as (now & st1 & Hnow & H).
  unfold new_Date in Hnow. injection Hnow as <- <-.
  apply bind_Return in H as (age_max & st2 & H1 & H). apply lift_Return in H1 as [Hmax ->].
  apply bind_Return in H as (minTime & st2 & H1 & H). apply lift_Return in H1 as [Hmin ->].
  apply bind_Return in H as (age_min & st2 & H1 & H). apply lift_Return in H1 as [Hmin' ->].
  apply bind_Return in H as (maxTime & st2 & H1 & H). apply lift_Return in H1 as [Hmax' ->].
  apply bind_Return in H as (ts & st2 & Hloop & H).
  apply bind_Return in H as (iso' & st3 & H1 & H). apply lift_Return in H1 as [Hiso ->].
  apply ret_Return in H as [Hv ->]. injection Hv as -> ->.
  apply do_while_first in Hloop as (k & Hk & Hd & Hreads & Hts & Hhas & Hall).
  cbn [draws reads] in *.
  unfold toISOString, new_Date_of in Hiso.
  destruct (TimeClip ts) as [t|] eqn:Et; [|discriminate].
  apply Return_inj in Hiso as <-.
  apply TimeClip_Some in Et as [-> Hvalid].
  exists age_max, age_min, minTime, maxTime, k, t.
  repeat split; auto; lia.
Qed.

(** X10: a call of [generateUniqueBirthdate] that returns gives the
    string of a valid timestamp that the set did not hold, and leaves the
    set with that timestamp added at its end; the string differs from the
    string of every valid timestamp that the set held. *)
Theorem generateUniqueBirthdate_adds_unused (w : World) (tries : nat) (age : jsval)
    (used : NumberSet) (st : state) (iso : string) (used' : NumberSet) (st' : state) :
  generateUniqueBirthdate w tries age used st = Return ((iso, used'), st') ->
  exists ts,
    iso = isoString ts /\ valid_time ts
    /\ Set_has used (Some ts) = false
    /\ used' = used ++ [Some ts]
    /\ forall t, valid_time t -> In (Some t) used -> isoString t <> iso.
Proof.
  intros H.
  apply generateUniqueBirthdate_Return in H
    as (_ & _ & _ & _ & _ & ts & _ & _ & _ & _ & _ & _ & Hvalid & Hhas & Hadd & Hiso & _).
  exists ts. repeat split; try assumption.
  intros t Ht Hin Heq. rewrite Hiso in Heq.
  apply isoString_inj in Heq; [|assumption|assumption]. subst t.
  apply Set_has_In in Hin. congruence.
Qed.

(** X11: a call of [generateUniqueBirthdate] that returns has read the
    clock once and has drawn until the first timestamp that the set did
    not hold: the birthdate comes from the last value of [Math.random()]
    that the call read, and every value it read before gave a timestamp of
    the set. *)
Theorem generateUniqueBirthdate_first_unused (w : World) (tries : nat) (age : jsval)
    (used : NumberSet) (st : state) (iso : string) (used' : NumberSet) (st' : state) :
  generateUniqueBirthdate w tries age used st = Return ((iso, used'), st') ->
  exists k ts,
    (draws st <= k)%nat /\ draws st' = S k /\ reads st' = S (reads st)
    /\ issued w age (reads st) k ts /\ iso = isoString ts
    /\ forall j tj, (draws st <= j < k)%nat ->
         issued w age (reads st) j tj -> In (Some tj) used.
Proof.
  intros H.
  apply generateUniqueBirthdate_first in H
    as (vmax & vmin & mn & mx & k & ts
        & Hgmax & Hgmin & Hmn & Hmx & Hk & Hd & Hr & Hts & Hiso & Hall).
  exists k, ts. repeat split; try assumption.
  - now exists vmax, vmin, mn, mx.
  - intros j tj Hj (vmax' & vmin' & mn' & mx' & Hgmax' & Hgmin' & Hmn' & Hmx' & Htj).
    rewrite Hgmax in Hgmax'. rewrite Hgmin in Hgmin'.
    apply Return_inj in Hgmax', Hgmin'. subst vmax' vmin'.
    rewrite Hmn in Hmn'. rewrite Hmx in Hmx'.
    apply Return_inj in Hmn', Hmx'. subst mn' mx'.
    apply Set_has_In. rewrite <- Htj. now apply Hall.
Qed.

(** ** Calls that throw *)

Lemma bind_Throw {A B} (c : M A) (k : A -> M B) st e :
  c st = Throw e -> bind c k st = Throw e.
Proof. unfold bind. now intros ->. Qed.

Lemma valid_request_truthy dtoIn n age :
  valid_request dtoIn n age -> ToBoolean dtoIn = true.
Proof. intros (Hc & _). destruct dtoIn; try discriminate. reflexivity. Qed.

(** Past the guard, [main] is its loop. *)
Lemma main_valid w fuel dtoIn n age :
  valid_request dtoIn n age ->
  main w fuel dtoIn = run (for_loop w fuel fuel (JNum n) age 0 [] []).
Proof.
  intros Hv. pose proof (valid_request_truthy _ _ _ Hv) as Hd.
  destruct Hv as (Hc & Ha & Hage). unfold main. unfold run at 1.
  rewrite (bind_eq _ _ _ _ _ (lift_eq _ _ _ Hc)).
  rewrite (bind_eq _ _ _ _ _ (lift_eq _ _ _ Ha)).
  rewrite Hage, Hd. reflexivity.
Qed.

(** With a bound that is not a valid date the timestamp is NaN, which an
    empty set does not hold: the loop ends at once, and [toISOString]
    throws. *)
Lemma generateUniqueBirthdate_invalid w tries age used st age_max age_min minTime maxTime :
  Get age "max" = Return age_max -> Get age "min" = Return age_min ->
  yearsBefore w (Some (clock w (reads st))) age_max = Return minTime ->
  yearsBefore w (Some (clock w (reads st))) age_min = Return maxTime ->
  minTime = None \/ maxTime = None ->
  Set_has used None = false ->
  generateUniqueBirthdate w (S tries) age used st = Throw RangeError.
Proof.
  intros Hmax Hmin Hymin Hymax Hnone Hnew. unfold generateUniqueBirthdate.
  rewrite (bind_eq (new_Date w) _ st (Some (clock w (reads st)))
             {| draws := draws st; reads := S (reads st) |} eq_refl).
  rewrite (bind_eq _ _ _ _ _ (lift_eq _ _ _ Hmax)).
  rewrite (bind_eq _ _ _ _ _ (lift_eq _ _ _ Hymin)).
  rewrite (bind_eq _ _ _ _ _ (lift_eq _ _ _ Hmin)).
  rewrite (bind_eq _ _ _ _ _ (lift_eq _ _ _ Hymax)).
  assert (Hts : forall r, plus minTime (floor_times r (minus maxTime minTime)) = None).
  { intros r. destruct Hnone as [-> | ->]; [reflexivity|].
    destruct minTime; reflexivity. }
  assert (Hloop : do_while w (S tries) minTime (minus maxTime minTime) used
                    {| draws := draws st; reads := S (reads st) |}
                  = Return (None, {| draws := S (draws st); reads := S (reads st) |})).
  { cbn [do_while].
    rewrite (bind_eq (Math_random w) _ {| draws := draws st; reads := S (reads st) |}
               (random w (draws st))
               {| draws := S (draws st); reads := S (reads st) |} eq_refl).
    rewrite Hts, Hnew. reflexivity. }
  rewrite (bind_eq _ _ _ _ _ Hloop).
  apply bind_Throw. reflexivity.
Qed.

(** X12: when [age.max] or [age.min] does not give a valid date (a
    missing field, a string that is not a number, a year out of the range
    of dates), a call for one record or more throws a RangeError at its
    first record, and returns nothing. *)
Theorem main_invalid_window_throws (w : World) (fuel : nat) (dtoIn : jsval)
    (count : number) (age age_min age_max : jsval) (minTime maxTime : timevalue) :
  valid_request dtoIn count age ->
  at_least 1 count = true ->
  Get age "max" = Return age_max -> Get age "min" = Return age_min ->
  yearsBefore w (Some (clock w 0)) age_max = Return minTime ->
  yearsBefore w (Some (clock w 0)) age_min = Return maxTime ->
  minTime = None \/ maxTime = None ->
  main w (S fuel) dtoIn = Throw RangeError.
Proof.
  intros Hv Hcount Hmax Hmin Hymin Hymax Hnone.
  rewrite (main_valid w (S fuel) dtoIn count age Hv).
  unfold run. cbn [for_loop less_than].
  rewrite (at_least_above count 1 0 Hcount ltac:(lia)).
  rewrite bind_Throw with (e := RangeError); [reflexivity|].
  unfold iteration.
  destruct (select_total w genders 0 {| draws := 0; reads := 0 |})
    as (g & s1 & Hg & Hr1 & _).
  destruct (select_total w workloads 0 s1) as (wl & s2 & Hwl & Hr2 & _).
  destruct (select_total w (names_of g) 0 s2) as (nm & s3 & Hn & Hr3 & _).
  destruct (select_total w (surnames_of g) 0 s3) as (sn & s4 & Hs & Hr4 & _).
  change (Z.of_nat 0) with 0 in *.
  rewrite (bind_eq _ _ _ _ _ Hg). rewrite (bind_eq _ _ _ _ _ Hwl).
  rewrite (bind_eq _ _ _ _ _ Hn). rewrite (bind_eq _ _ _ _ _ Hs).
  apply bind_Throw.
  assert (Hr : reads s4 = 0%nat) by (rewrite Hr4, Hr3, Hr2, Hr1; reflexivity).
  apply (generateUniqueBirthdate_invalid w fuel age [] s4 age_max age_min minTime maxTime);
    try assumption; try reflexivity; now rewrite Hr.
Qed.

(** ** Calls that do not throw *)

(** With valid bounds the loop does not throw: it returns a valid
    timestamp, or it is still drawing when its fuel is used up. *)
Lemma do_while_no_throw w tries (minTime maxTime : Z) used st :
  (forall n, in_unit_interval (random w n)) ->
  valid_time minTime -> valid_time maxTime ->
  do_while w tries (Some minTime) (minus (Some maxTime) (Some minTime)) used st = OutOfFuel
  \/ exists ts st',
       do_while w tries (Some minTime) (minus (Some maxTime) (Some minTime)) used st
       = Return (Some ts, st') /\ valid_time ts.
Proof.
  intros Hw Hmn Hmx. revert st. induction tries as [|tries IH]; intros st; [now left|].
  cbn [do_while].
  rewrite (bind_eq (Math_random w) _ st (random w (draws st))
             {| draws := S (draws st); reads := reads st |} eq_refl).
  cbn [minus floor_times option_map plus].
  destruct (Set_has used _); [apply IH|].
  right. eexists _, _. split; [reflexivity|].
  destruct (draw_between (random w (draws st)) minTime maxTime (Hw _) Hmn Hmx) as [H1 H2].
  unfold valid_time in *.
  destruct (Z.lt_ge_cases minTime maxTime) as [Hlt|Hge];
    [specialize (H1 Hlt)|specialize (H2 ltac:(lia))]; lia.
Qed.

Lemma generateUniqueBirthdate_no_throw w tries age used st age_min age_max minTime maxTime :
  (forall n, in_unit_interval (random w n)) ->
  Get age "max" = Return age_max -> Get age "min" = Return age_min ->
  yearsBefore w (Some (clock w (reads st))) age_max = Return (Some minTime) ->
  yearsBefore w (Some (clock w (reads st))) age_min = Return (Some maxTime) ->
  generateUniqueBirthdate w tries age used st = OutOfFuel
  \/ exists b st', generateUniqueBirthdate w tries age used st = Return (b, st').
Proof.
  intros Hw Hmax Hmin Hymin Hymax. unfold generateUniqueBirthdate.
  rewrite (bind_eq (new_Date w) _ st (Some (clock w (reads st)))
             {| draws := draws st; reads := S (reads st) |} eq_refl).
  rewrite (bind_eq _ _ _ _ _ (lift_eq _ _ _ Hmax)).
  rewrite (bind_eq _ _ _ _ _ (lift_eq _ _ _ Hymin)).
  rewrite (bind_eq _ _ _ _ _ (lift_eq _ _ _ Hmin)).
  rewrite (bind_eq _ _ _ _ _ (lift_eq _ _ _ Hymax)).
  destruct (do_while_no_throw w tries minTime maxTime used
              {| draws := draws st; reads := S (reads st) |} Hw
              (yearsBefore_valid _ _ _ _ Hymin) (yearsBefore_valid _ _ _ _ Hymax))
    as [Hout|(ts & st' & Hloop & Hvalid)].
  - left. now apply bind_OutOfFuel.
  - right. rewrite (bind_eq _ _ _ _ _ Hloop).
    unfold new_Date_of. rewrite (TimeClip_valid ts Hvalid). cbn [toISOString].
    rewrite (bind_eq _ _ _ _ _ (lift_eq _ _ _ eq_refl)).
    eexists _, _. reflexivity.
Qed.

Lemma iteration_no_throw w tries age (i : nat) used st age_min age_max minTime maxTime :
  (forall n, in_unit_interval (random w n)) ->
  Get age "max" = Return age_max -> Get age "min" = Return age_min ->
  yearsBefore w (Some (clock w (reads st))) age_max = Return (Some minTime) ->
  yearsBefore w (Some (clock w (reads st))) age_min = Return (Some maxTime) ->
  iteration w tries age (Z.of_nat i) used st = OutOfFuel
  \/ exists e st', iteration w tries age (Z.of_nat i) used st = Return (e, st')
                   /\ reads st' = S (reads st).
Proof.
  intros Hw Hmax Hmin Hymin Hymax. unfold iteration.
  destruct (select_total w genders i st) as (g & s1 & Hg & Hr1 & _).
  destruct (select_total w workloads i s1) as (wl & s2 & Hwl & Hr2 & _).
  destruct (select_total w (names_of g) i s2) as (nm & s3 & Hn & Hr3 & _).
  destruct (select_total w (surnames_of g) i s3) as (sn & s4 & Hs & Hr4 & _).
  rewrite (bind_eq _ _ _ _ _ Hg). rewrite (bind_eq _ _ _ _ _ Hwl).
  rewrite (bind_eq _ _ _ _ _ Hn). rewrite (bind_eq _ _ _ _ _ Hs).
  assert (Hr : reads s4 = reads st) by congruence.
  rewrite <- Hr in Hymin, Hymax.
  destruct (generateUniqueBirthdate_no_throw w tries age used s4 age_min age_max
              minTime maxTime Hw Hmax Hmin Hymin Hymax) as [Hout|(b & st' & Hb)].
  - left. now apply bind_OutOfFuel.
  - right. rewrite (bind_eq _ _ _ _ _ Hb). eexists _, _. split; [reflexivity|].
    destruct b as [iso used'].
    apply generateUniqueBirthdate_Return in Hb
      as (_ & _ & _ & _ & _ & _ & _ & _ & _ & _ & _ & _ & _ & _ & _ & _ & Hreads).
    congruence.
Qed.

(** What the loop body that returns has added to the set. *)
Lemma iteration_issued w tries age i used st e used' st' :
  iteration w tries age i used st = Return ((e, used'), st') ->
  exists k ts,
    used' = used ++ [Some ts] /\ issued w age (reads st) k ts
    /\ valid_time ts /\ Set_has used (Some ts) = false.
Proof.
  intros Hit.
  apply iteration_Return in Hit as (s1 & s2 & s3 & s4 & Hg & Hwl & Hn & Hs & Hb).
  apply select_Return in Hg as [Hg _]. apply select_Return in Hwl as [Hwl _].
  apply select_Return in Hn as [Hn _]. apply select_Return in Hs as [Hs _].
  apply generateUniqueBirthdate_Return in Hb
    as (vmax & vmin & minTime & maxTime & k & ts
        & Hgmax & Hgmin & Hymin & Hymax & _ & Hts & Hv & Hhas & Hadd & _ & _).
  exists k, ts. repeat split; try assumption.
  replace (reads st) with (reads s4) by congruence.
  now exists vmax, vmin, minTime, maxTime.
Qed.

(** The loop of [main] does not throw when the dates are valid and the
    array has room: [room] is what the run keeps true of the counter and
    of the set, and what shows that the array is not full when a record
    has been made. *)
Lemma for_loop_no_throw w tries age age_min age_max count
    (room : Z -> NumberSet -> Prop) :
  (forall n, in_unit_interval (random w n)) ->
  Get age "max" = Return age_max -> Get age "min" = Return age_min ->
  (forall c, exists minTime maxTime,
      yearsBefore w (Some (clock w c)) age_max = Return (Some minTime)
      /\ yearsBefore w (Some (clock w c)) age_min = Return (Some maxTime)) ->
  (forall i used c k ts,
      room i used -> less_than i count = true ->
      issued w age c k ts -> valid_time ts -> Set_has used (Some ts) = false ->
      i < maxArrayLength /\ room (i + 1) (used ++ [Some ts])) ->
  forall fuel dtoOut used st,
    room (Z.of_nat (List.length dtoOut)) used ->
    for_loop w tries fuel count age (Z.of_nat (List.length dtoOut)) dtoOut used st
    = OutOfFuel
    \/ exists l st',
         for_loop w tries fuel count age (Z.of_nat (List.length dtoOut)) dtoOut used st
         = Return (l, st').
Proof.
  intros Hw Hmax Hmin Hdates Hstep.
  induction fuel as [|fuel IH]; intros dtoOut used st Hroom; cbn [for_loop];
    destruct (less_than (Z.of_nat (List.length dtoOut)) count) eqn:Hlt;
    try (right; eexists _, _; reflexivity); [now left|].
  destruct (Hdates (reads st)) as (mn & mx & Hymin & Hymax).
  destruct (iteration_no_throw w tries age (List.length dtoOut) used st age_min age_max
              mn mx Hw Hmax Hmin Hymin Hymax) as [Hout|([e used'] & st' & Hit & _)].
  - left. now apply bind_OutOfFuel.
  - rewrite (bind_eq _ _ _ _ _ Hit). cbn [fst snd].
    destruct (iteration_issued _ _ _ _ _ _ _ _ _ Hit) as (k & ts & -> & Hiss & Hv & Hnew).
    destruct (Hstep _ _ _ _ _ Hroom Hlt Hiss Hv Hnew) as [Hfree Hroom'].
    rewrite (bind_eq _ _ _ _ _ (lift_eq _ _ _ (push_eq dtoOut e Hfree))).
    rewrite counter_succ by lia.
    replace (Z.of_nat (List.length dtoOut) + 1)
      with (Z.of_nat (List.length (dtoOut ++ [e])))
      by (rewrite length_app; cbn [List.length]; lia).
    apply IH.
    replace (Z.of_nat (List.length (dtoOut ++ [e])))
      with (Z.of_nat (List.length dtoOut) + 1)
      by (rewrite length_app; cbn [List.length]; lia).
    exact Hroom'.
Qed.

Lemma lt_number_le (i j : Z) (n : number) :
  i <= j -> lt_number j n = true -> lt_number i n = true.
Proof.
  intros Hij. destruct n as [|s|m e]; cbn [lt_number]; try (intros H; exact H).
  destruct (Z.leb_spec 0 e) as [He|He]; rewrite !Z.ltb_lt; [lia|].
  pose proof (pow2_pos (- e) ltac:(lia)). nia.
Qed.

(** X13: a valid request whose [age.max] and [age.min] give valid dates
    at every reading of the clock, and whose [count] is not above
    [2 ^ 32 - 1], the greatest length of an array, never throws, whatever
    [Math.random()] gives in [[0, 1)]: the call returns a list, or it is
    still running when the fuel is used up. *)
Theorem main_never_throws (w : World) (fuel : nat) (dtoIn : jsval) (count : number)
    (age age_min age_max : jsval) :
  (forall n, in_unit_interval (random w n)) ->
  valid_request dtoIn count age ->
  lt_number maxArrayLength count = false ->
  Get age "max" = Return age_max -> Get age "min" = Return age_min ->
  (forall c, exists minTime maxTime,
      yearsBefore w (Some (clock w c)) age_max = Return (Some minTime)
      /\ yearsBefore w (Some (clock w c)) age_min = Return (Some maxTime)) ->
  main w fuel dtoIn = OutOfFuel \/ exists l, main w fuel dtoIn = Return l.
Proof.
  intros Hw Hv Hcount Hmax Hmin Hdates.
  rewrite (main_valid w fuel dtoIn count age Hv). unfold run.
  destruct (for_loop_no_throw w fuel age age_min age_max (JNum count) (fun _ _ => True)
              Hw Hmax Hmin Hdates) with (fuel := fuel) (dtoOut := @nil Employee)
    (used := @nil timevalue) (st := {| draws := 0; reads := 0 |})
    as [Hout|(l & st' & Hl)]; cbn [List.length] in *; change (Z.of_nat 0) with 0 in *.
  - intros i used c k ts _ Hlt _ _ _. split; [|exact I].
    destruct (Z.lt_ge_cases i maxArrayLength) as [|Hge]; [assumption|].
    cbn [less_than] in Hlt.
    rewrite (lt_number_le maxArrayLength i count Hge Hlt) in Hcount. discriminate.
  - exact I.
  - left. now rewrite Hout.
  - right. exists l. now rewrite Hl.
Qed.

(** ** A window with fewer instants than records *)

Lemma map_length_eq {A B C} (f : A -> C) (g : B -> C) (l : list A) (l' : list B) :
  map f l = map g l' -> List.length l = List.length l'.
Proof.
  intros H. apply (f_equal (@List.length C)) in H. now rewrite !length_map in H.
Qed.

(** Distinct integers of a range are no more than the range has. *)
Lemma NoDup_range_length (l : list Z) (lo n : Z) :
  NoDup l -> (forall x, In x l -> lo <= x < lo + n) ->
  Z.of_nat (List.length l) <= Z.max 0 n.
Proof.
  intros Hnd Hin.
  assert (Hincl : incl l (map (fun i => lo + Z.of_nat i) (seq 0 (Z.to_nat n)))).
  { intros x Hx. apply Hin in Hx. apply in_map_iff.
    exists (Z.to_nat (x - lo)). split; [lia|]. apply in_seq. lia. }
  apply (NoDup_incl_length Hnd) in Hincl.
  rewrite length_map, length_seq in Hincl. lia.
Qed.


(** X14: while the clock stands still the window holds [maxTime -
    minTime] timestamps when its bounds are in order and [minTime -
    maxTime + 1] otherwise (one when they are equal), and the birthdates of
    a call are distinct: a call for more records than the window holds
    never returns.  When the window holds no more timestamps than an array
    holds elements, the call does not throw either: however much fuel it is
    given, it is still drawing when the fuel is used up. *)
Theorem main_window_exhausted (w : World) (fuel : nat) (dtoIn : jsval) (count : Z)
    (age age_min age_max : jsval) (now minTime maxTime : Z) :
  (forall n, in_unit_interval (random w n)) ->
  (forall n, clock w n = now) ->
  valid_request dtoIn (ofZ count) age ->
  Get age "min" = Return age_min -> Get age "max" = Return age_max ->
  yearsBefore w (Some now) age_max = Return (Some minTime) ->
  yearsBefore w (Some now) age_min = Return (Some maxTime) ->
  window_size minTime maxTime < count ->
  returned (main w fuel dtoIn) = false
  /\ (window_size minTime maxTime <= maxArrayLength -> main w fuel dtoIn = OutOfFuel).
Proof.
  intros Hw Hclock Hv Hmin Hmax Hymin Hymax Hsize.
  assert (Hwin : forall c k x, issued w age c k x ->
                   Z.min minTime maxTime <= x
                   < Z.min minTime maxTime + window_size minTime maxTime).
  { intros c k x Hk.
    pose proof (issued_between w age c k x age_min age_max minTime maxTime (Hw k)
                  Hmin Hmax) as Hb.
    rewrite Hclock in Hb. specialize (Hb Hymin Hymax Hk).
    unfold window_size. destruct (Z.ltb_spec minTime maxTime); lia. }
  assert (Hpos : 0 < window_size minTime maxTime).
  { unfold window_size. destruct (Z.ltb_spec minTime maxTime); lia. }
  assert (Hnot : returned (main w fuel dtoIn) = false).
  { destruct (main w fuel dtoIn) as [l| |] eqn:Hmain; try reflexivity. exfalso.
    destruct (main_issued w fuel dtoIn _ age l Hv Hmain) as (tss & Hmap & _ & Hnd & Hiss).
    destruct Hv as (Hc & Ha & Hage).
    apply (main_run w fuel dtoIn _ age l Hc Ha eq_refl Hage) in Hmain.
    apply loop_run_ceiling in Hmain. apply map_length_eq in Hmap.
    assert (Hin : forall x, In x tss ->
                    Z.min minTime maxTime <= x
                    < Z.min minTime maxTime + window_size minTime maxTime).
    { intros x Hx. apply In_nth_error in Hx as (j & Hj).
      destruct (Hiss j x Hj) as (k & Hk). exact (Hwin j k x Hk). }
    pose proof (NoDup_range_length tss _ _ Hnd Hin) as Hle.
    unfold ceiling in Hmain. cbn in Hmain. lia. }
  split; [exact Hnot|]. intros Hroom.
  rewrite (main_valid w fuel dtoIn (ofZ count) age Hv) in *. unfold run in *.
  destruct (for_loop_no_throw w fuel age age_min age_max (JNum (ofZ count))
              (within (Z.min minTime maxTime) (window_size minTime maxTime))
              Hw Hmax Hmin) with (fuel := fuel) (dtoOut := @nil Employee)
    (used := @nil timevalue) (st := {| draws := 0; reads := 0 |})
    as [Hout|(l & st' & Hl)]; cbn [List.length] in *; change (Z.of_nat 0) with 0 in *.
  - intros c. exists minTime, maxTime. now rewrite Hclock.
  - intros i used c k ts (tss & -> & Hnd & Hlen & Hin) _ Hiss _ Hnew.
    assert (Hw' : within (Z.min minTime maxTime) (window_size minTime maxTime) (i + 1)
                    (map Some tss ++ [Some ts])).
    { exists (tss ++ [ts]). rewrite map_app, length_app. cbn [map List.length].
      split; [reflexivity|]. split; [|split; [lia|]].
      - apply NoDup_app; [assumption|repeat constructor; intros []|].
        intros x Hx [<-|[]].
        apply (in_map Some) in Hx. apply Set_has_In in Hx. congruence.
      - intros x Hx. apply in_app_or in Hx as [Hx|[<-|[]]]; [now apply Hin|].
        exact (Hwin c k _ Hiss). }
    split; [|exact Hw'].
    destruct Hw' as (tss' & Heq & Hnd' & Hlen' & Hin').
    pose proof (NoDup_range_length tss' _ _ Hnd' Hin'). lia.
  - exists []. split; [reflexivity|]. split; [apply NoDup_nil|].
    split; [reflexivity|]. intros x [].
  - now rewrite Hout.
  - rewrite Hl in Hnot. discriminate.
Qed.


(** ** The witnesses of the further properties *)

Lemma records_gender_and_workload_witness :
  In record5 records20
  /\ In (gender record5) genders /\ In (workload record5) workloads.
Proof.
  assert (Hin : In record5 records20) by (vm_compute; tauto).
  split; [exact Hin|].
  exact (records_gender_and_workload world0 20 (request (ofZ 20) 20 30) (ofZ 20)
           age_20_30 records20 record5 (proj1 world0_ok) valid_request_20
           main_records20 Hin).
Defined.

Lemma records_names_match_gender_witness :
  In record5 records20
  /\ ((gender record5 = JStr "male" /\ In (name record5) maleNames
       /\ In (surname record5) male)
      \/ (gender record5 = JStr "female" /\ In (name record5) femaleNames
          /\ In (surname record5) female)).
Proof.
  assert (Hin : In record5 records20) by (vm_compute; tauto).
  split; [exact Hin|].
  exact (records_names_match_gender world0 20 (request (ofZ 20) 20 30) (ofZ 20)
           age_20_30 records20 record5 (proj1 world0_ok) valid_request_20
           main_records20 Hin).
Defined.

Lemma main_rounds_count_up_witness :
  valid_request (request (Finite 5 (-1)) 20 30) (Finite 5 (-1)) age_20_30
  /\ Z.of_nat (List.length records_two_and_a_half) = Z.max 0 (ceiling 5 (-1)).
Proof.
  assert (Hv : valid_request (request (Finite 5 (-1)) 20 30) (Finite 5 (-1)) age_20_30)
    by (repeat split).
  split; [exact Hv|].
  apply (main_rounds_count_up world0 3 (request (Finite 5 (-1)) 20 30) 5 (-1) age_20_30
           records_two_and_a_half Hv).
  vm_compute. reflexivity.
Defined.

Lemma main_infinite_count_witness :
  valid_request (request (Infinity false) 20 30) (Infinity false) age_20_30
  /\ returned (main world0 7 (request (Infinity false) 20 30)) = false.
Proof.
  assert (Hv : valid_request (request (Infinity false) 20 30) (Infinity false) age_20_30)
    by (repeat split).
  split; [exact Hv|].
  exact (main_infinite_count world0 7 (request (Infinity false) 20 30) false age_20_30 Hv).
Defined.

Lemma birthdate_between_bounds_witness :
  exists e ts,
    nth_error records_inverted 0 = Some e
    /\ birthdate e = isoString ts /\ valid_time ts
    /\ (1162450800123 < 846918000123 -> 1162450800123 <= ts < 846918000123)
    /\ (846918000123 <= 1162450800123 -> 846918000123 <= ts <= 1162450800123).
Proof.
  assert (Hv : valid_request (request (ofZ 1) 30 20) (ofZ 1)
                 (JObj [("min", JNum (ofZ 30)); ("max", JNum (ofZ 20))]))
    by (repeat split).
  assert (Hmain : main world0 1 (request (ofZ 1) 30 20) = Return records_inverted)
    by (vm_compute; reflexivity).
  destruct (birthdate_between_bounds world0 1 (request (ofZ 1) 30 20) (ofZ 1) _
              (JNum (ofZ 30)) (JNum (ofZ 20)) 1162450800123 846918000123
              records_inverted 0 (first_record_born "2006-11-02T07:00:00.122Z")
              (proj1 world0_ok) Hv eq_refl eq_refl
              ltac:(vm_compute; reflexivity) ltac:(vm_compute; reflexivity)
              Hmain eq_refl) as (ts & H).
  exists (first_record_born "2006-11-02T07:00:00.122Z"), ts.
  split; [reflexivity | exact H].
Defined.

Lemma world0_offset : fixed_offset world0 3600000.
Proof. intros t isUTC. reflexivity. Qed.

Lemma birthdate_in_past_witness :
  nth_error records20 2 = Some record2
  /\ exists ts, birthdate record2 = isoString ts /\ valid_time ts /\ ts < clock world0 2.
Proof.
  split; [reflexivity|].
  apply (birthdate_in_past world0 20 (request (ofZ 20) 20 30) (ofZ 20) age_20_30 20 30
           records20 2 record2 world0_ok valid_request_20 eq_refl eq_refl);
    [lia | exact main_records20 | reflexivity].
Defined.

Lemma yearsBefore_same_date_witness :
  yearsBefore world0 (Some 1709208000000) (JNum (ofZ 1)) = Return (Some 1677672000000)
  /\ isoString (LocalTime world0 1709208000000) = "2024-02-29T13:00:00.000Z"
  /\ isoString (LocalTime world0 1677672000000) = "2023-03-01T13:00:00.000Z"
  /\ getFullYear world0 (Some 1677672000000)
     = ofZ (YearFromTime (LocalTime world0 1709208000000) - 1)
  /\ TimeWithinDay (LocalTime world0 1677672000000)
     = TimeWithinDay (LocalTime world0 1709208000000)
  /\ if (MonthFromTime (LocalTime world0 1709208000000) =? 1)
        && (DateFromTime (LocalTime world0 1709208000000) =? 29)
        && (leapOf (YearFromTime (LocalTime world0 1709208000000) - 1) =? 0)
     then MonthFromTime (LocalTime world0 1677672000000) = 2
          /\ DateFromTime (LocalTime world0 1677672000000) = 1
     else MonthFromTime (LocalTime world0 1677672000000)
          = MonthFromTime (LocalTime world0 1709208000000)
          /\ DateFromTime (LocalTime world0 1677672000000)
             = DateFromTime (LocalTime world0 1709208000000).
Proof.
  assert (H : yearsBefore world0 (Some 1709208000000) (JNum (ofZ 1))
              = Return (Some 1677672000000)) by (vm_compute; reflexivity).
  split; [exact H|].
  split; [vm_compute; reflexivity|].
  split; [vm_compute; reflexivity|].
  exact (yearsBefore_same_date world0 3600000 1709208000000 1 1677672000000
           world0_ok world0_offset H).
Defined.

Lemma birth_year_in_range_witness :
  nth_error records20 2 = Some record2
  /\ exists ts,
       birthdate record2 = isoString ts /\ valid_time ts
       /\ YearFromTime (LocalTime world0 (clock world0 2)) - 30
          <= YearFromTime (LocalTime world0 ts)
          <= YearFromTime (LocalTime world0 (clock world0 2)) - 20.
Proof.
  split; [reflexivity|].
  apply (birth_year_in_range world0 3600000 20 (request (ofZ 20) 20 30) (ofZ 20)
           age_20_30 20 30 records20 2 record2 world0_ok world0_offset
           valid_request_20 eq_refl eq_refl);
    [lia | exact main_records20 | reflexivity].
Defined.

Lemma randomInt_onto_witness :
  exists r,
    in_unit_interval r
    /\ forall w st, random w (draws st) = r ->
         randomInt w 16 st = Return (15, {| draws := S (draws st); reads := reads st |}).
Proof.
  apply (randomInt_onto 16 15); [split; [lia|vm_compute; discriminate] | lia].
Defined.

Lemma generateUniqueBirthdate_retry :
  generateUniqueBirthdate world0 5 age_20_30 [Some 846918000123]
    {| draws := 0; reads := 0 |}
  = Return (("2003-01-04T13:54:12.966Z", [Some 846918000123; Some 1041688452966]),
            {| draws := 2; reads := 1 |}).
Proof. vm_compute. reflexivity. Qed.

Lemma generateUniqueBirthdate_adds_unused_witness :
  exists ts,
    "2003-01-04T13:54:12.966Z"%string = isoString ts /\ valid_time ts
    /\ Set_has [Some 846918000123] (Some ts) = false
    /\ [Some 846918000123; Some 1041688452966] = [Some 846918000123] ++ [Some ts]
    /\ forall t, valid_time t -> In (Some t) [Some 846918000123] ->
         isoString t <> "2003-01-04T13:54:12.966Z"%string.
Proof.
  exact (generateUniqueBirthdate_adds_unused world0 5 age_20_30 [Some 846918000123]
           {| draws := 0; reads := 0 |} _ _ _ generateUniqueBirthdate_retry).
Defined.

Lemma generateUniqueBirthdate_first_unused_witness :
  exists k ts,
    (0 <= k)%nat /\ 2%nat = S k /\ 1%nat = 1%nat
    /\ issued world0 age_20_30 0 k ts /\ "2003-01-04T13:54:12.966Z"%string = isoString ts
    /\ forall j tj, (0 <= j < k)%nat ->
         issued world0 age_20_30 0 j tj -> In (Some tj) [Some 846918000123].
Proof.
  exact (generateUniqueBirthdate_first_unused world0 5 age_20_30 [Some 846918000123]
           {| draws := 0; reads := 0 |} _ _ _ generateUniqueBirthdate_retry).
Defined.

Lemma main_invalid_window_throws_witness :
  main world0 5 (JObj [("count", JNum (ofZ 3)); ("age", JObj [("min", JNum (ofZ 20))])])
  = Throw RangeError.
Proof.
  apply (main_invalid_window_throws world0 4 _ (ofZ 3) (JObj [("min", JNum (ofZ 20))])
           (JNum (ofZ 20)) JUndefined None (Some 1162450800123)).
  - repeat split.
  - reflexivity.
  - reflexivity.
  - reflexivity.
  - vm_compute. reflexivity.
  - vm_compute. reflexivity.
  - now left.
Defined.

Lemma main_window_exhausted_witness :
  window_size 815295600123 815295600123 < 2
  /\ returned (main world1 9 (JObj [("count", JNum (ofZ 2)); ("age", age_quarter_half)]))
     = false
  /\ (window_size 815295600123 815295600123 <= maxArrayLength ->
      main world1 9 (JObj [("count", JNum (ofZ 2)); ("age", age_quarter_half)])
      = OutOfFuel).
Proof.
  split; [reflexivity|].
  apply (main_window_exhausted world1 9 _ 2 age_quarter_half (JNum (Finite 121 (-2)))
           (JNum (Finite 61 (-1))) 1793602800123 815295600123 815295600123).
  - exact (proj1 world0_ok).
  - reflexivity.
  - repeat split.
  - reflexivity.
  - reflexivity.
  - vm_compute. reflexivity.
  - vm_compute. reflexivity.
  - reflexivity.
Defined.

Lemma main_never_throws_witness :
  main world1 3 (request (ofZ 3) 20 30) = OutOfFuel
  \/ exists l, main world1 3 (request (ofZ 3) 20 30) = Return l.
Proof.
  apply (main_never_throws world1 3 (request (ofZ 3) 20 30) (ofZ 3) age_20_30
           (JNum (ofZ 20)) (JNum (ofZ 30))).
  - exact (proj1 world0_ok).
  - repeat split.
  - reflexivity.
  - reflexivity.
  - reflexivity.
  - intros c. exists 846918000123, 1162450800123.
    split; vm_compute; reflexivity.
Defined.

